(** * EasyElective: the election engine of [easyelective.py]

    A shallow embedding of the course-election bot: the exception
    taxonomy, the functions that talk to the portal ([get_iaaa_token],
    [get_elective_session], [get_courses], [solve_captcha], [elect]) and the
    polling loop of [main], followed by the properties of the matcher, of
    the error classification and of the working target list. *)

From Stdlib Require Import List String Ascii ZArith Bool Arith Lia.
Import ListNotations.

Local Open Scope Z_scope.

#[local] Set Warnings "-register-all".

(** ** Python values used by the program *)

(** The exceptions that can travel through the program.  The first four are
    the program's own classes; the others are raised by the interpreter or
    by [requests]. *)
Inductive exn : Type :=
| AuthenticationError
| NetworkError
| SessionExpiredError
| IllegalOperationError
| RequestException
| ValueError
| KeyError
| AttributeError
| TypeError
| IndexError
| UnboundLocalError
| SystemExit (code : Z).

(** Outcome of a computation: a value, a raised exception, or the model's
    recursion budget used up. *)
Inductive result (A : Type) : Type :=
| Ok (a : A)
| Raise (e : exn)
| OutOfFuel.

Arguments Ok {A} a.
Arguments Raise {A} e.
Arguments OutOfFuel {A}.

(** *** Strings *)

Definition is_space (c : ascii) : bool :=
  let n := nat_of_ascii c in
  (((9 <=? n) && (n <=? 13)) || ((28 <=? n) && (n <=? 32)))%nat.

Definition digit_of (c : ascii) : option Z :=
  let n := nat_of_ascii c in
  if ((48 <=? n) && (n <=? 57))%nat then Some (Z.of_nat (n - 48)) else None.

Fixpoint lstrip (s : string) : string :=
  match s with
  | EmptyString => EmptyString
  | String c s' => if is_space c then lstrip s' else s
  end.

Fixpoint rstrip (s : string) : string :=
  match s with
  | EmptyString => EmptyString
  | String c s' =>
      match rstrip s' with
      | EmptyString => if is_space c then EmptyString else String c EmptyString
      | r => String c r
      end
  end.

Definition strip (s : string) : string := rstrip (lstrip s).

(** Digits of a decimal literal, single underscores allowed between digits.
    [seen] tells whether the previous character was a digit. *)
Fixpoint int_digits (s : string) (acc : Z) (seen : bool) : option Z :=
  match s with
  | EmptyString => if seen then Some acc else None
  | String c s' =>
      match digit_of c with
      | Some d => int_digits s' (10 * acc + d) true
      | None =>
          if (Ascii.eqb c "_" && seen)%bool then int_digits s' acc false
          else None
      end
  end.

(** [int(s)] on a [str]: surrounding white space is dropped, one sign is
    allowed, the rest is a decimal literal.  [None] stands for
    [ValueError].  Only ASCII digits and ASCII white space are recognised. *)
Definition py_int (s : string) : option Z :=
  match strip s with
  | String "-" d => option_map Z.opp (int_digits d 0 false)
  | String "+" d => int_digits d 0 false
  | d => int_digits d 0 false
  end.

(** [s.split(sep)] for a one-character separator. *)
Fixpoint str_split (sep : ascii) (s : string) : list string :=
  match s with
  | EmptyString => [EmptyString]
  | String c s' =>
      if Ascii.eqb c sep then EmptyString :: str_split sep s'
      else match str_split sep s' with
           | h :: t => String c h :: t
           | [] => [String c EmptyString]
           end
  end.

(** [needle in s] on strings. *)
Fixpoint contains (needle s : string) : bool :=
  String.prefix needle s
  || match s with
     | EmptyString => false
     | String _ s' => contains needle s'
     end.

(** *** JSON documents, as [Response.json()] returns them *)
Inductive json : Type :=
| JNull
| JBool (b : bool)
| JNum (n : Z)
| JStr (s : string)
| JArr (items : list json)
| JObj (fields : list (string * json)).

Fixpoint assoc {A : Type} (k : string) (l : list (string * A)) : option A :=
  match l with
  | [] => None
  | (k', v) :: l' => if String.eqb k k' then Some v else assoc k l'
  end.

(** [doc[key]] with a [str] key: [KeyError] on a dict without the key,
    [TypeError] on everything that is not a dict. *)
Definition subscript (doc : json) (key : string) : result json :=
  match doc with
  | JObj fields =>
      match assoc key fields with
      | Some v => Ok v
      | None => Raise KeyError
      end
  | _ => Raise TypeError
  end.

(** [v != "2"] *)
Definition differs_from_str (v : json) (s : string) : bool :=
  match v with
  | JStr s' => negb (String.eqb s' s)
  | _ => true
  end.

(** ** Data model *)

(** [Course = namedtuple("Course", [...])] *)
Module Course.

Record t : Type := make {
  name : string;
  classID : string;
  college : string;
  max_slots : Z;
  used_slots : Z;
  elect_address : string
}.

End Course.

(** A row of [targets.csv] as [csv.DictReader] yields it; the header of the
    file is [courseName,classID,college], and [target[key]] is the
    projection. *)
Module Target.

Record t : Type := make {
  courseName : string;
  classID : string;
  college : string
}.

(** [==] on two rows. *)
Definition eq_dec (a b : t) : {a = b} + {a <> b}.
Proof. decide equality; apply string_dec. Defined.

End Target.

(** ** The outside world *)

Inductive method : Type := GET | POST.

(** What [requests] is asked to send. *)
Record request : Type := {
  meth : method;
  url : string;
  headers : list (string * string);
  fields : list (string * json);
  timeout : option Z
}.

(** A [td] cell of the course table: its text, and its first [a] tag if
    any, with that tag's [href] if any. *)
Record td : Type := {
  text : string;
  anchor : option (option string)
}.

(** What [BeautifulSoup(resp.text)] lets the program see: the rows of
    [table.datagrid] and the text of the element with id [msgTips]. *)
Record soup : Type := {
  datagrid : option (list (list td));
  msgTips : option string
}.

Record response : Type := {
  status_code : Z;
  content : string;
  json_body : option json;
  html : soup
}.

(** A request either fails in transport ([RequestException]) or is
    answered. *)
Inductive reply : Type :=
| Unreachable
| Answer (r : response).

(** The portal and the two library functions the program imports. *)
Class Environment : Type := {
  World : Type;
  send : request -> World -> reply * World;
  recognize_captcha : string -> string;
  urljoin : string -> string -> string
}.

(** [requests.Session()] after [session.headers.update]. *)
Record Session : Type := { session_headers : list (string * string) }.

(** ** What a run leaves behind *)

Inductive level : Type := DEBUG | INFO | WARNING | ERROR | CRITICAL.

(** One constructor per [logger] call of the program. *)
Inductive message : Type :=
| Msg_version
| Msg_attempt_token
| Msg_got_token
| Msg_attempt_session
| Msg_got_session_debug
| Msg_attempt_courses
| Msg_network_courses
| Msg_parse_failed
| Msg_attempt_captcha
| Msg_attempt_elect (course_name : string)
| Msg_elected (course_name : string)
| Msg_failed_elect (course_name msg : string)
| Msg_got_session
| Msg_authentication
| Msg_retry_session
| Msg_refreshing
| Msg_not_found (course_name : string)
| Msg_discovered (course_name class_id : string) (max_slots used_slots : Z)
| Msg_session_expired
| Msg_ignoring (course_name : string)
| Msg_network
| Msg_no_more_targets
| Msg_uncaught (e : exn).

(** The trace of a run: log records, sleeps, and two marks for the list
    being scanned: [For_target t] when the [for] statement binds [target]
    to [t], and [Removed t] when [targets.remove(t)] has removed a row. *)
Inductive event : Type :=
| Log (l : level) (m : message)
| Sleep (seconds : Z)
| For_target (t : Target.t)
| Removed (t : Target.t).

(** ** State and exceptions *)

Definition M (S A : Type) : Type := S -> result A * S.

Definition ret {S A : Type} (a : A) : M S A := fun s => (Ok a, s).

Definition raise {S A : Type} (e : exn) : M S A := fun s => (Raise e, s).

Definition of_result {S A : Type} (r : result A) : M S A := fun s => (r, s).

Definition bind {S A B : Type} (m : M S A) (k : A -> M S B) : M S B :=
  fun s =>
    match m s with
    | (Ok a, s') => k a s'
    | (Raise e, s') => (Raise e, s')
    | (OutOfFuel, s') => (OutOfFuel, s')
    end.

(** [try: m except ...: h]; the handler answers [None] for the exceptions
    no clause catches. *)
Definition try_except {S A : Type} (m : M S A) (h : exn -> option (M S A))
  : M S A :=
  fun s =>
    match m s with
    | (Raise e, s') =>
        match h e with
        | Some k => k s'
        | None => (Raise e, s')
        end
    | r => r
    end.

Declare Scope monad_scope.
Delimit Scope monad_scope with monad.

Notation "x <- m ;; k" := (bind m (fun x => k))
  (at level 61, m at next level, right associativity) : monad_scope.
Notation "m ;; k" := (bind m (fun _ => k))
  (at level 61, right associativity) : monad_scope.

(** The same for computations without state. *)
Definition rbind {A B : Type} (r : result A) (k : A -> result B) : result B :=
  match r with
  | Ok a => k a
  | Raise e => Raise e
  | OutOfFuel => OutOfFuel
  end.

Notation "x <-? r ;; k" := (rbind r (fun x => k))
  (at level 61, r at next level, right associativity) : monad_scope.

Local Open Scope monad_scope.

(** [l[i]] *)
Definition index {A : Type} (l : list A) (i : nat) : result A :=
  match nth_error l i with
  | Some a => Ok a
  | None => Raise IndexError
  end.

(** [int(s)] *)
Definition int (s : string) : result Z :=
  match py_int s with
  | Some z => Ok z
  | None => Raise ValueError
  end.

(** ** The functions of [easyelective.py] *)

Section Program.

Context {E : Environment}.

(** The part of the state every function can touch: the portal and the
    trace, latest event first. *)
Record io : Type := {
  world : World;
  trace : list event
}.

Definition emit (e : event) : M io unit :=
  fun s => (Ok tt, {| world := world s; trace := e :: trace s |}).

Definition logger (l : level) (m : message) : M io unit := emit (Log l m).

Definition sleep (seconds : Z) : M io unit := emit (Sleep seconds).

(** [requests.get], [requests.post], [session.get], [session.post] *)
Definition http (r : request) : M io response :=
  fun s =>
    let (rep, w) := send r (world s) in
    let s' := {| world := w; trace := trace s |} in
    match rep with
    | Unreachable => (Raise RequestException, s')
    | Answer resp => (Ok resp, s')
    end.

(** [resp.json()] *)
Definition resp_json (resp : response) : result json :=
  match json_body resp with
  | Some doc => Ok doc
  | None => Raise ValueError
  end.

Definition on_request_exception {A : Type} (k : M io A) (e : exn)
  : option (M io A) :=
  match e with
  | RequestException => Some k
  | _ => None
  end.

Definition iaaa_url : string :=
  "https://iaaa.pku.edu.cn/iaaa/oauthlogin.do".

Definition get_iaaa_token (appid username password redir : string)
  : M io json :=
  logger DEBUG Msg_attempt_token ;;
  let form :=
    [ ("appid", JStr appid); ("userName", JStr username);
      ("password", JStr password); ("randCode", JStr "");
      ("smsCode", JStr ""); ("otpCode", JStr "");
      ("redirUrl", JStr redir) ]%string in
  r <- try_except
         (http {| meth := POST; url := iaaa_url; headers := [];
                  fields := form; timeout := Some 5 |})
         (on_request_exception (raise NetworkError)) ;;
  token <- try_except
             (of_result (doc <-? resp_json r ;; subscript doc "token"))
             (fun e => match e with
                       | KeyError => Some (raise AuthenticationError)
                       | _ => None
                       end) ;;
  logger DEBUG Msg_got_token ;;
  ret token.

Definition fake_headers : list (string * string) :=
  [ ("Referer",
     "http://elective.pku.edu.cn/elective2008/edu/pku/stu/elective/controller/help/HelpController.jpf");
    ("User-Agent",
     "Mozilla/5.0 (Windows NT 10.0; Win64; x64) AppleWebKit/537.36 (KHTML, like Gecko) Chrome/69.0.3497.100 Safari/537.36")
  ]%string.

Definition login_url : string :=
  "http://elective.pku.edu.cn/elective2008/ssoLogin.do".

Definition get_elective_session (username password : string)
  : M io Session :=
  logger DEBUG Msg_attempt_session ;;
  let session := {| session_headers := fake_headers |} in
  let appid := "syllabus"%string in
  let redir :=
    "http://elective.pku.edu.cn/elective2008/agent4Iaaa.jsp/../ssoLogin.do"%string in
  token <- get_iaaa_token appid username password redir ;;
  try_except
    (resp <- http {| meth := GET; url := login_url;
                     headers := session_headers session;
                     fields := [("token"%string, token)];
                     timeout := Some 5 |} ;;
     if negb (status_code resp =? 200) then raise AuthenticationError
     else logger DEBUG Msg_got_session_debug ;; ret session)
    (on_request_exception (raise NetworkError)).

(** [max_slots, used_slots = (int(s) for s in parts)]: every way this can
    fail (a part that is not a number, fewer or more than two parts) is a
    [ValueError]. *)
Definition unpack_slots (parts : list string) : result (Z * Z) :=
  match parts with
  | [a; b] => x <-? int a ;; y <-? int b ;; Ok (x, y)
  | _ => Raise ValueError
  end.

(** [data[10].find("a")["href"]] *)
Definition href_of (cell : td) : result string :=
  match anchor cell with
  | None => Raise TypeError
  | Some None => Raise KeyError
  | Some (Some h) => Ok h
  end.

Definition base_url : string := "http://elective.pku.edu.cn".

(** The body of [for item in items] in [get_courses]. *)
Definition parse_item (data : list td) : result Course.t :=
  d0 <-? index data 0 ;;
  d5 <-? index data 5 ;;
  d6 <-? index data 6 ;;
  d9 <-? index data 9 ;;
  slots <-? unpack_slots (str_split "/" (text d9)) ;;
  d10 <-? index data 10 ;;
  href <-? href_of d10 ;;
  Ok (Course.make (text d0) (text d5) (text d6) (fst slots) (snd slots)
        (urljoin base_url href)).

Fixpoint parse_items (items : list (list td)) : result (list Course.t) :=
  match items with
  | [] => Ok []
  | item :: rest =>
      course <-? parse_item item ;;
      courses <-? parse_items rest ;;
      Ok (course :: courses)
  end.

Definition url_supply_cancel : string :=
  "http://elective.pku.edu.cn/elective2008/edu/pku/stu/elective/controller/supplement/SupplyCancel.do".

Definition get_courses (session : Session) : M io (list Course.t) :=
  logger DEBUG Msg_attempt_courses ;;
  resp <- try_except
            (http {| meth := GET; url := url_supply_cancel;
                     headers := session_headers session;
                     fields := []; timeout := Some 5 |})
            (on_request_exception
               (logger DEBUG Msg_network_courses ;; raise NetworkError)) ;;
  try_except
    (of_result
       (items <-? match datagrid (html resp) with
                  | Some rows => Ok rows
                  | None => Raise AttributeError
                  end ;;
        parse_items items))
    (fun e => match e with
              | ValueError | AttributeError =>
                  Some (logger INFO Msg_parse_failed ;;
                        raise SessionExpiredError)
              | _ => None
              end).

Definition request_captcha_url : string :=
  "http://elective.pku.edu.cn/elective2008/DrawServlet".

Definition submit_url : string :=
  "http://elective.pku.edu.cn/elective2008/edu/pku/stu/elective/controller/supplement/validate.do".

(** [session.get(request_captcha_url)] *)
Definition captcha_request (session : Session) : request :=
  {| meth := GET; url := request_captcha_url;
     headers := session_headers session; fields := []; timeout := None |}.

(** [session.post(submit_url, data={"validCode": result}, timeout=5)] *)
Definition submit_request (session : Session) (result : string) : request :=
  {| meth := POST; url := submit_url; headers := session_headers session;
     fields := [("validCode"%string, JStr result)]; timeout := Some 5 |}.

(** [except ValueError: raise SessionExpiredError] *)
Definition on_value_error (e : exn) : option (M io unit) :=
  match e with
  | ValueError => Some (raise SessionExpiredError)
  | _ => None
  end.

(** [solve_captcha] calls itself; [depth] bounds the nesting of calls. *)
Fixpoint solve_captcha (depth : nat) (session : Session) : M io unit :=
  match depth with
  | O => of_result OutOfFuel
  | S depth' =>
      logger DEBUG Msg_attempt_captcha ;;
      img <- http (captcha_request session) ;;
      let result := recognize_captcha (content img) in
      resp <- http (submit_request session result) ;;
      try_except
        (valid <- of_result (doc <-? resp_json resp ;; subscript doc "valid") ;;
         if differs_from_str valid "2" then solve_captcha depth' session
         else ret tt)
        on_value_error
  end.

(** The confirmation marker looked for in the portal's message: the two
    characters U+6210 U+529F, in UTF-8. *)
Definition success_marker : string :=
  String (ascii_of_nat 230) (String (ascii_of_nat 136) (String (ascii_of_nat 144)
  (String (ascii_of_nat 229) (String (ascii_of_nat 138) (String (ascii_of_nat 159)
   EmptyString))))).

(** [soup.find(id="msgTips").text] *)
Definition msg_tips_text (resp : response) : result string :=
  match msgTips (html resp) with
  | Some msg => Ok msg
  | None => Raise AttributeError
  end.

(** [session.get(course.elect_address)] *)
Definition elect_request (session : Session) (course : Course.t) : request :=
  {| meth := GET; url := Course.elect_address course;
     headers := session_headers session; fields := []; timeout := None |}.

Definition elect (depth : nat) (session : Session) (course : Course.t)
  : M io unit :=
  logger INFO (Msg_attempt_elect (Course.name course)) ;;
  solve_captcha depth session ;;
  msg <- try_except
           (resp <- http (elect_request session course) ;;
            of_result (msg_tips_text resp))
           (fun e => match e with
                     | KeyError | AttributeError =>
                         Some (raise SessionExpiredError)
                     | _ => None
                     end) ;;
  if contains success_marker msg
  then logger INFO (Msg_elected (Course.name course))
  else logger INFO (Msg_failed_elect (Course.name course) msg) ;;
       raise IllegalOperationError.

End Program.

(** ** [main] *)

(** The filter of the list comprehension that builds [search_result]; the
    three [if] clauses are evaluated left to right and [int] may raise. *)
Definition matches (course : Course.t) (target : Target.t) : result bool :=
  if String.eqb (Course.name course) (Target.courseName target) then
    a <-? int (Course.classID course) ;;
    b <-? int (Target.classID target) ;;
    if a =? b
    then Ok (String.eqb (Course.college course) (Target.college target))
    else Ok false
  else Ok false.

Fixpoint search_result (courses : list Course.t) (target : Target.t)
  : result (list Course.t) :=
  match courses with
  | [] => Ok []
  | course :: rest =>
      keep <-? matches course target ;;
      found <-? search_result rest target ;;
      Ok (if keep then course :: found else found)
  end.

(** [l.remove(x)] once [x in l] is known: the first element equal to [x]
    goes. *)
Fixpoint remove_first (x : Target.t) (l : list Target.t) : list Target.t :=
  match l with
  | [] => []
  | y :: l' => if Target.eq_dec y x then l' else y :: remove_first x l'
  end.

Section Main.

Context {E : Environment}.

(** The local variables of [main] that outlive one statement, and the
    rest of the state. *)
Record machine : Type := {
  outside : io;
  targets : list Target.t;
  target : option Target.t;
  session_expired : bool;
  sess : option Session
}.

Definition lift {A : Type} (m : M io A) : M machine A :=
  fun s =>
    let (r, o) := m (outside s) in
    (r, {| outside := o; targets := targets s; target := target s;
           session_expired := session_expired s; sess := sess s |}).

Definition set_targets (l : list Target.t) : M machine unit :=
  fun s =>
    (Ok tt, {| outside := outside s; targets := l; target := target s;
               session_expired := session_expired s; sess := sess s |}).

Definition set_target (t : Target.t) : M machine unit :=
  fun s =>
    (Ok tt, {| outside := outside s; targets := targets s; target := Some t;
               session_expired := session_expired s; sess := sess s |}).

Definition set_session_expired (b : bool) : M machine unit :=
  fun s =>
    (Ok tt, {| outside := outside s; targets := targets s; target := target s;
               session_expired := b; sess := sess s |}).

Definition set_sess (x : Session) : M machine unit :=
  fun s =>
    (Ok tt, {| outside := outside s; targets := targets s; target := target s;
               session_expired := session_expired s; sess := Some x |}).

(** Reading a local variable that may not have been assigned yet. *)
Definition read {A : Type} (var : machine -> option A) : M machine A :=
  fun s =>
    match var s with
    | Some a => (Ok a, s)
    | None => (Raise UnboundLocalError, s)
    end.

(** [targets.remove(x)] *)
Definition targets_remove (x : Target.t) : M machine unit :=
  fun s =>
    if in_dec Target.eq_dec x (targets s)
    then (set_targets (remove_first x (targets s)) ;; lift (emit (Removed x))) s
    else (Raise ValueError, s).

Section Iteration.

Variable depth : nat.
Variable session : Session.
Variable courses : list Course.t.

(** [for course in search_result: ...] *)
Fixpoint for_course (found : list Course.t) (t : Target.t)
  : M machine unit :=
  match found with
  | [] => ret tt
  | course :: rest =>
      (if Course.used_slots course <? Course.max_slots course then
         lift (logger INFO
                 (Msg_discovered (Course.name course) (Course.classID course)
                    (Course.max_slots course) (Course.used_slots course))) ;;
         lift (elect depth session course) ;;
         targets_remove t
       else ret tt) ;;
      for_course rest t
  end.

(** The body of [for target in targets]. *)
Definition for_target_body (t : Target.t) : M machine unit :=
  found <- of_result (search_result courses t) ;;
  (match found with
   | [] =>
       lift (logger WARNING (Msg_not_found (Target.courseName t))) ;;
       targets_remove t
   | _ :: _ => ret tt
   end) ;;
  for_course found t.

(** [for target in targets]: the list iterator keeps a position [i] and
    reads the list as it is at each step.  [n] bounds the number of steps;
    [S (length targets)] is always enough. *)
Fixpoint for_target (n i : nat) : M machine unit :=
  match n with
  | O => of_result OutOfFuel
  | S n' =>
      fun s =>
        match nth_error (targets s) i with
        | None => (Ok tt, s)
        | Some t =>
            (set_target t ;;
             lift (emit (For_target t)) ;;
             for_target_body t ;;
             for_target n' (S i)) s
        end
  end.

End Iteration.

(** The [except] clauses of the [try] statement in the loop of [main]. *)
Definition handlers (e : exn) : option (M machine unit) :=
  match e with
  | SessionExpiredError =>
      Some (lift (logger WARNING Msg_session_expired) ;;
            set_session_expired true)
  | IllegalOperationError =>
      Some (t <- read target ;;
            lift (logger WARNING (Msg_ignoring (Target.courseName t))) ;;
            targets_remove t)
  | NetworkError => Some (lift (logger WARNING Msg_network))
  | _ => None
  end.

(** The [try] block: fetch the directory and scan the targets. *)
Definition refresh_and_scan (depth : nat) : M machine unit :=
  session <- read sess ;;
  courses <- lift (get_courses session) ;;
  fun s => for_target depth session courses (S (List.length (targets s))) 0 s.

(** One turn of [while targets], after the session has been ensured. *)
Definition iteration (depth : nat) : M machine unit :=
  lift (logger DEBUG Msg_refreshing) ;;
  try_except (refresh_and_scan depth) handlers ;;
  lift (sleep 10).

Section Loops.

Variables username password : string.
Variable depth : nat.

(** One attempt of the [while session_expired] loop. *)
Definition login_attempt : M machine unit :=
  try_except
    (x <- lift (get_elective_session username password) ;;
     set_sess x ;;
     lift (logger INFO Msg_got_session) ;;
     set_session_expired false)
    (fun e => match e with
              | AuthenticationError =>
                  Some (lift (logger CRITICAL Msg_authentication) ;;
                        raise (SystemExit 1))
              | NetworkError =>
                  Some (lift (logger INFO Msg_retry_session) ;;
                        lift (sleep 10))
              | _ => None
              end).

(** [while session_expired: ...], at most [n] turns. *)
Fixpoint login_loop (n : nat) : M machine unit :=
  match n with
  | O => fun s => if session_expired s then (OutOfFuel, s) else (Ok tt, s)
  | S n' =>
      fun s =>
        if session_expired s then (login_attempt ;; login_loop n') s
        else (Ok tt, s)
  end.

(** [while targets: ...], at most [n] turns. *)
Fixpoint main_loop (n : nat) : M machine unit :=
  match n with
  | O => fun s => match targets s with
                  | [] => (Ok tt, s)
                  | _ :: _ => (OutOfFuel, s)
                  end
  | S n' =>
      fun s =>
        match targets s with
        | [] => (Ok tt, s)
        | _ :: _ => (login_loop n ;; iteration depth ;; main_loop n') s
        end
  end.

(** The state in which the loop of [main] starts, once [config.yaml] and
    [targets.csv] have been read. *)
Definition initial (w : World) (rows : list Target.t) : machine :=
  {| outside := {| world := w; trace := [Log INFO Msg_version] |};
     targets := rows; target := None;
     session_expired := true; sess := None |}.

(** [main], under [@logger.catch]: an exception other than [SystemExit]
    is logged and swallowed. *)
Definition main (n : nat) (w : World) (rows : list Target.t)
  : result unit * machine :=
  try_except
    (main_loop n ;; lift (logger INFO Msg_no_more_targets))
    (fun e => match e with
              | SystemExit _ => None
              | _ => Some (lift (logger ERROR (Msg_uncaught e)))
              end)
    (initial w rows).

End Loops.

End Main.

(** ** Notions used in the statements *)

(** The match relation in the words of the specification: the names are
    equal, the section identifiers are equal as numbers, the departments
    are equal. *)
Definition same_triple (course : Course.t) (target : Target.t) : bool :=
  String.eqb (Course.name course) (Target.courseName target)
  && match py_int (Course.classID course), py_int (Target.classID target) with
     | Some a, Some b => a =? b
     | _, _ => false
     end
  && String.eqb (Course.college course) (Target.college target).


(** The classification of the portal's answer to an election request, in
    the words of the specification: success when the message carries the
    confirmation marker, [IllegalOperationError] for any other message,
    [SessionExpiredError] when there is no message to read. *)
Definition classify (resp : response) : result unit :=
  match msgTips (html resp) with
  | None => Raise SessionExpiredError
  | Some msg =>
      if contains success_marker msg then Ok tt
      else Raise IllegalOperationError
  end.

(** [course.used_slots < course.max_slots] *)
Definition electable (course : Course.t) : bool :=
  Course.used_slots course <? Course.max_slots course.

(** The number of electable courses among the matches of a target. *)
Definition count_electable (found : list Course.t) : nat :=
  List.length (filter electable found).

(** ** Reading a trace *)

(** A log record other than the announcement of an election attempt. *)
Definition quiet (e : event) : Prop :=
  match e with
  | Log _ (Msg_attempt_elect _) => False
  | Log _ _ => True
  | _ => False
  end.

(** An event that is not a removal. *)
Definition harmless (e : event) : Prop :=
  match e with
  | Removed _ => False
  | _ => True
  end.

(** An event other than the binding of the loop variable. *)
Definition settled (e : event) : Prop :=
  match e with
  | For_target _ => False
  | _ => True
  end.

(** The first record a stage writes when it starts: the directory fetch
    and the election attempt. *)
Definition stage_start (e : event) : Prop :=
  e = Log DEBUG Msg_attempt_courses
  \/ exists course_name, e = Log INFO (Msg_attempt_elect course_name).


Definition discovered (course : Course.t) : event :=
  Log INFO
    (Msg_discovered (Course.name course) (Course.classID course)
       (Course.max_slots course) (Course.used_slots course)).

(** The number of election attempts announced in a trace: [elect] starts
    with [logger.info(f"Attempting to elect {course.name}")]. *)
Fixpoint attempts (tr : list event) : nat :=
  match tr with
  | [] => 0
  | Log _ (Msg_attempt_elect _) :: tr' => S (attempts tr')
  | _ :: tr' => attempts tr'
  end.

(** The number of election attempts announced for the course name [name]. *)
Fixpoint attempts_of (name : string) (tr : list event) : nat :=
  match tr with
  | [] => 0
  | Log _ (Msg_attempt_elect name') :: tr' =>
      ((if String.eqb name' name then 1 else 0) + attempts_of name tr')%nat
  | _ :: tr' => attempts_of name tr'
  end.


(** Whether the [for] statement bound [target] to [t] in a trace. *)
Definition bound_in (t : Target.t) (tr : list event) : bool :=
  existsb (fun e => match e with
                    | For_target u =>
                        if Target.eq_dec u t then true else false
                    | _ => false
                    end) tr.


(** Since the failing stage started, only quiet log records were written:
    nothing was removed, no other target was bound, no other attempt
    begun. *)
Definition since_stage_start (tr : list event) : Prop :=
  exists new e rest,
    tr = new ++ e :: rest /\ stage_start e /\ Forall quiet new.

(** The latest event is the record of a rejected election of [t]. *)
Definition just_rejected (t : Target.t) (tr : list event) : Prop :=
  exists msg rest,
    tr = Log INFO (Msg_failed_elect (Target.courseName t) msg) :: rest.

(** ** States of the machine *)

(** The trace of a machine state. *)
Definition events {E : Environment} (s : machine) : list event :=
  trace (outside s).

(** The state after one more event. *)
Definition log_to {E : Environment} (e : event) (o : io) : io :=
  {| world := world o; trace := e :: trace o |}.

(** The state in which [elect] calls [solve_captcha]. *)
Definition announced {E : Environment} (course : Course.t) (s : io) : io :=
  {| world := world s;
     trace := Log INFO (Msg_attempt_elect (Course.name course)) :: trace s |}.

(** The machine with another portal state and trace. *)
Definition with_outside {E : Environment} (s : machine) (o : io) : machine :=
  {| outside := o; targets := targets s; target := target s;
     session_expired := session_expired s; sess := sess s |}.

(** The machine once [targets.remove(x)] has removed [x]. *)
Definition without {E : Environment} (x : Target.t) (s : machine) : machine :=
  {| outside := log_to (Removed x) (outside s);
     targets := remove_first x (targets s); target := target s;
     session_expired := session_expired s; sess := sess s |}.

(** The machine once the [for] statement has bound [target] to [t]. *)
Definition visiting {E : Environment} (t : Target.t) (s : machine) : machine :=
  {| outside := log_to (For_target t) (outside s);
     targets := targets s; target := Some t;
     session_expired := session_expired s; sess := sess s |}.

(** The machine once [logger.debug("Refreshing course list")] is done. *)
Definition refreshed {E : Environment} (s : machine) : machine :=
  with_outside s (log_to (Log DEBUG Msg_refreshing) (outside s)).

(** ** Properties of computations *)

(** A computation that only adds quiet log records to the trace. *)
Definition emits_quietly {E : Environment} {A : Type} (m : M io A) : Prop :=
  forall s r s',
    m s = (r, s') ->
    exists new, trace s' = new ++ trace s /\ Forall quiet new.

Definition emits_harmless {E : Environment} {A : Type} (m : M io A) : Prop :=
  forall s r s',
    m s = (r, s') ->
    exists new, trace s' = new ++ trace s /\ Forall harmless new.




(** ** A scripted portal, for concrete runs *)

(** The portal answers the successive requests with the replies of a
    script, whatever is asked; once the script is used up nothing answers
    any more. *)
Definition scripted_send (r : request) (script : list reply)
  : reply * list reply :=
  match script with
  | [] => (Unreachable, [])
  | x :: script' => (x, script')
  end.

Definition scripted : Environment := {|
  World := list reply;
  send := scripted_send;
  recognize_captcha := fun _ => "abcd"%string;
  urljoin := fun base href => (base ++ href)%string
|}.

Definition no_soup : soup := {| datagrid := None; msgTips := None |}.

(** A response whose body is the JSON document [doc]. *)
Definition json_page (doc : json) : reply :=
  Answer {| status_code := 200; content := ""; json_body := Some doc;
            html := no_soup |}.

(** A response whose body is HTML. *)
Definition html_page (code : Z) (doc : soup) : reply :=
  Answer {| status_code := code; content := ""; json_body := None;
            html := doc |}.

Definition cell (s : string) : td := {| text := s; anchor := None |}.

(** A row of the course table: name, class, college, [max/used], link. *)
Definition row (name class college slots href : string) : list td :=
  [ cell name; cell ""; cell ""; cell ""; cell ""; cell class; cell college;
    cell ""; cell ""; cell slots;
    {| text := ""; anchor := Some (Some href) |} ]%string.

Definition directory (rows : list (list td)) : reply :=
  html_page 200 {| datagrid := Some rows; msgTips := None |}.

Definition tips (msg : string) : reply :=
  html_page 200 {| datagrid := None; msgTips := Some msg |}.

Definition token_ok : reply := json_page (JObj [("token"%string, JStr "t0")]).

Definition captcha_image : reply := html_page 200 no_soup.

Definition captcha_valid : reply := json_page (JObj [("valid"%string, JStr "2")]).

Definition captcha_invalid : reply := json_page (JObj [("valid"%string, JStr "0")]).

Definition elected : reply := tips (success_marker ++ "!")%string.

Definition refused : reply := tips "conflict"%string.

(** An answer to an election request from which no message can be read. *)
Definition no_message : reply := html_page 200 no_soup.

(** The two answers of a successful login. *)
Definition login_ok : list reply := [token_ok; html_page 200 no_soup].

(** [n] rejected CAPTCHA answers followed by an accepted one. *)
Fixpoint captcha_rounds (n : nat) : list reply :=
  match n with
  | O => [captcha_image; captcha_valid]
  | S n' => captcha_image :: captcha_invalid :: captcha_rounds n'
  end.

(** ** Concrete data *)

Definition a_session : Session := {| session_headers := fake_headers |}.

Definition fresh (script : list reply) : io (E := scripted) :=
  @Build_io scripted script [].

(** The machine at the start of an iteration with a session in hand. *)
Definition logged_in (script : list reply) (rows : list Target.t)
  : machine (E := scripted) :=
  @Build_machine scripted (fresh script) rows None false (Some a_session).

(** How a run of [main] ended: outcome, targets left, last event. *)
Definition ending (r : result unit * machine (E := scripted))
  : result unit * list Target.t * option event :=
  (fst r, targets (snd r), hd_error (trace (outside (snd r)))).

Definition intro_cs_7 : Course.t :=
  Course.make "Intro CS" "7" "CS" 50 49 "http://elective.pku.edu.cn/e7".



Definition algebra : Target.t := Target.make "Algebra" "1" "Math".

Definition biology : Target.t := Target.make "Biology" "02" "Life".

Definition chemistry : Target.t := Target.make "Chemistry" "3" "Chem".

Definition algebra_row (slots : string) : list td :=
  row "Algebra" "01" "Math" slots "/elect/algebra".

Definition biology_row (slots : string) : list td :=
  row "Biology" "2" "Life" slots "/elect/biology".

Definition chemistry_row (slots : string) : list td :=
  row "Chemistry" "3" "Chem" slots "/elect/chemistry".

(** The courses that [get_courses] reads from the rows above. *)
Definition algebra_course : Course.t :=
  Course.make "Algebra" "01" "Math" 50 49
    "http://elective.pku.edu.cn/elect/algebra".

Definition biology_course : Course.t :=
  Course.make "Biology" "2" "Life" 50 49
    "http://elective.pku.edu.cn/elect/biology".

Definition chemistry_course : Course.t :=
  Course.make "Chemistry" "3" "Chem" 50 49
    "http://elective.pku.edu.cn/elect/chemistry".

Definition algebra_full : Course.t :=
  Course.make "Algebra" "01" "Math" 50 50
    "http://elective.pku.edu.cn/elect/algebra".

(** ** Notions for the further properties *)

(** [session.get(url_supply_cancel, timeout=5)] *)
Definition courses_request (session : Session) : request :=
  {| meth := GET; url := url_supply_cancel;
     headers := session_headers session; fields := []; timeout := Some 5 |}.


(** The body of the second [try] block of [get_courses]: the rows of
    [table.datagrid], parsed. *)
Definition read_table {E : Environment} (resp : response)
  : result (list Course.t) :=
  items <-? match datagrid (html resp) with
            | Some rows => Ok rows
            | None => Raise AttributeError
            end ;;
  parse_items items.


(** [requests.post(url, data=form, timeout=5)] of [get_iaaa_token]. *)
Definition token_request (appid username password redir : string) : request :=
  {| meth := POST; url := iaaa_url; headers := [];
     fields :=
       [ ("appid", JStr appid); ("userName", JStr username);
         ("password", JStr password); ("randCode", JStr "");
         ("smsCode", JStr ""); ("otpCode", JStr "");
         ("redirUrl", JStr redir) ]%string;
     timeout := Some 5 |}.

(** [r.json()["token"]] *)
Definition token_of (r : response) : result json :=
  match json_body r with
  | Some doc => subscript doc "token"
  | None => Raise ValueError
  end.

(** [session.get(login_url, params={"token": token}, timeout=5)] *)
Definition login_request (token : json) : request :=
  {| meth := GET; url := login_url; headers := fake_headers;
     fields := [("token"%string, token)]; timeout := Some 5 |}.

(** The session [get_elective_session] builds. *)
Definition the_session : Session := {| session_headers := fake_headers |}.

(** A computation that leaves the part [f] of the machine as it is. *)
Definition preserves {E : Environment} {A X : Type}
  (f : machine -> X) (m : M machine A) : Prop :=
  forall s r s', m s = (r, s') -> f s' = f s.

(** The errors of the interpreter and of [requests] that no clause of the
    program catches on every path. *)
Definition library_error (e : exn) : Prop :=
  e = RequestException \/ e = KeyError \/ e = TypeError
  \/ e = IndexError \/ e = ValueError.

(** The elements at the odd places of a list, counting from 0. *)
Fixpoint odd_places {A : Type} (l : list A) : list A :=
  match l with
  | _ :: b :: l' => b :: odd_places l'
  | _ => []
  end.
(** * The target matcher *)



(** Whatever the strings, a result of the comprehension is the filter. *)
Lemma search_sound (courses found : list Course.t) (target : Target.t) :
  search_result courses target = Ok found ->
  found = filter (fun course => same_triple course target) courses.
Proof.
  revert found. induction courses as [ | course rest IH]; simpl; intros found H.
  - congruence.
  - destruct (matches course target) as [keep | e | ] eqn:Hm; simpl in H;
      try discriminate.
    destruct (search_result rest target) as [found' | e | ] eqn:Hs; simpl in H;
      try discriminate.
    injection H as <-. rewrite <- (IH found' eq_refl).
    assert (Hk : keep = same_triple course target).
    { unfold matches, same_triple, int in *.
      destruct (String.eqb (Course.name course) (Target.courseName target));
        simpl in *; [ | congruence ].
      destruct (py_int (Course.classID course)); simpl in *; [ | discriminate ].
      destruct (py_int (Target.classID target)); simpl in *; [ | discriminate ].
      destruct (_ =? _); simpl in *; congruence. }
    rewrite <- Hk. reflexivity.
Qed.

Lemma search_name (courses found : list Course.t) (target : Target.t) :
  search_result courses target = Ok found ->
  Forall (fun course => Course.name course = Target.courseName target) found.
Proof.
  intros H. rewrite (search_sound _ _ _ H). apply Forall_forall.
  intros c Hc. apply filter_In in Hc. destruct Hc as [_ Hc].
  unfold same_triple in Hc.
  apply andb_true_iff in Hc. destruct Hc as [Hc _].
  apply andb_true_iff in Hc. destruct Hc as [Hc _].
  apply String.eqb_eq. exact Hc.
Qed.



(** * The functions that talk to the portal *)

Section Portal_facts.

Context {E : Environment}.

Lemma emits_ret {A : Type} (a : A) : emits_quietly (ret a).
Proof.
  intros s r s' H. injection H as <- <-. exists []. split; [reflexivity | constructor].
Qed.

Lemma emits_raise {A : Type} (e : exn) : emits_quietly (raise (A := A) e).
Proof.
  intros s r s' H. injection H as <- <-. exists []. split; [reflexivity | constructor].
Qed.

Lemma emits_of_result {A : Type} (x : result A) : emits_quietly (of_result x).
Proof.
  intros s r s' H. injection H as <- <-. exists []. split; [reflexivity | constructor].
Qed.

Lemma emits_logger (l : level) (m : message) :
  quiet (Log l m) -> emits_quietly (logger l m).
Proof.
  intros Hq s r s' H. injection H as <- <-. exists [Log l m].
  split; [reflexivity | constructor; [exact Hq | constructor]].
Qed.

Lemma emits_http (q : request) : emits_quietly (http q).
Proof.
  intros s r s' H. unfold http in H.
  destruct (send q (world s)) as [[ | resp] w]; injection H as <- <-;
    exists []; (split; [reflexivity | constructor]).
Qed.

Lemma emits_bind {A B : Type} (m : M io A) (k : A -> M io B) :
  emits_quietly m -> (forall a, emits_quietly (k a)) ->
  emits_quietly (bind m k).
Proof.
  intros Hm Hk s r s' H. unfold bind in H.
  destruct (m s) as [[a | e | ] s1] eqn:Hms;
    destruct (Hm _ _ _ Hms) as [new1 [E1 F1]].
  - destruct (Hk a _ _ _ H) as [new2 [E2 F2]].
    exists (new2 ++ new1). rewrite E2, E1, app_assoc.
    split; [reflexivity | apply Forall_app; split; assumption].
  - injection H as <- <-. exists new1. split; assumption.
  - injection H as <- <-. exists new1. split; assumption.
Qed.

Lemma emits_try {A : Type} (m : M io A) (h : exn -> option (M io A)) :
  emits_quietly m ->
  (forall e k, h e = Some k -> emits_quietly k) ->
  emits_quietly (try_except m h).
Proof.
  intros Hm Hh s r s' H. unfold try_except in H.
  destruct (m s) as [[a | e | ] s1] eqn:Hms;
    destruct (Hm _ _ _ Hms) as [new1 [E1 F1]].
  - injection H as <- <-. exists new1. split; assumption.
  - destruct (h e) as [k | ] eqn:Hk.
    + destruct (Hh e k Hk _ _ _ H) as [new2 [E2 F2]].
      exists (new2 ++ new1). rewrite E2, E1, app_assoc.
      split; [reflexivity | apply Forall_app; split; assumption].
    + injection H as <- <-. exists new1. split; assumption.
  - injection H as <- <-. exists new1. split; assumption.
Qed.

Lemma emits_on_request_exception {A : Type} (k k' : M io A) (e : exn) :
  emits_quietly k -> on_request_exception k e = Some k' -> emits_quietly k'.
Proof.
  intros Hk H. destruct e; try discriminate. injection H as <-. exact Hk.
Qed.

End Portal_facts.

(** Breaks a computation into its statements. *)
Ltac quietly :=
  repeat first
    [ apply emits_ret
    | apply emits_raise
    | apply emits_of_result
    | apply emits_http
    | apply emits_logger; exact I
    | apply emits_bind; [ | intros ? ]
    | apply emits_try;
      [ | let e := fresh "e" in
          let k := fresh "k" in
          let H := fresh "H" in
          intros e k H;
          first [ eapply emits_on_request_exception; [ | exact H ]
                | destruct e; try discriminate H; injection H as <- ] ]
    | match goal with
      | |- emits_quietly (if ?b then _ else _) => destruct b
      end ].

Section Portal_quiet.

Context {E : Environment}.

Lemma get_iaaa_token_quiet (appid username password redir : string) :
  emits_quietly (get_iaaa_token appid username password redir).
Proof. unfold get_iaaa_token. quietly. Qed.



Lemma solve_captcha_quiet (depth : nat) (session : Session) :
  emits_quietly (solve_captcha depth session).
Proof.
  induction depth as [ | depth IH]; simpl.
  - apply emits_of_result.
  - quietly. exact IH.
Qed.

End Portal_quiet.

(** * The election executor *)

Section Elect_facts.

Context {E : Environment}.

Lemma elect_after_answer
  (depth : nat) (session : Session) (course : Course.t)
  (s s1 s2 : io) (resp : response) :
  solve_captcha depth session (announced course s) = (Ok tt, s1) ->
  http (elect_request session course) s1 = (Ok resp, s2) ->
  fst (elect depth session course s) = classify resp.
Proof.
  intros Hc Hh. unfold elect, bind, logger, emit. fold (announced course s).
  rewrite Hc. unfold try_except, bind. rewrite Hh.
  unfold of_result, msg_tips_text, classify.
  destruct (msgTips (html resp)) as [msg | ]; [ | reflexivity ].
  destruct (contains success_marker msg); reflexivity.
Qed.

Lemma elect_ok_inv
  (depth : nat) (session : Session) (course : Course.t) (s : io) :
  fst (elect depth session course s) = Ok tt ->
  exists s1 resp s2 msg,
    solve_captcha depth session (announced course s) = (Ok tt, s1)
    /\ http (elect_request session course) s1 = (Ok resp, s2)
    /\ msgTips (html resp) = Some msg
    /\ contains success_marker msg = true.
Proof.
  unfold elect, bind, logger, emit. fold (announced course s).
  destruct (solve_captcha depth session (announced course s))
    as [[[] | e | ] s1] eqn:Hc; simpl; try discriminate.
  unfold try_except, bind.
  destruct (http (elect_request session course) s1)
    as [[resp | e | ] s2] eqn:Hh; simpl.
  - unfold of_result, msg_tips_text.
    destruct (msgTips (html resp)) as [msg | ] eqn:Hm; simpl;
      [ | discriminate ].
    destruct (contains success_marker msg) eqn:Hin; simpl; [ | discriminate ].
    intros _. exists s1, resp, s2, msg. repeat split; assumption.
  - destruct e; simpl; discriminate.
  - discriminate.
Qed.

End Elect_facts.

(** C3. [elect] returns normally exactly when the CAPTCHA gate was passed,
    the portal answered the election request, and the message of the answer
    carries the confirmation marker; and once the portal has answered, the
    outcome of [elect] is the classification of the answer: success for a
    message with the marker, [IllegalOperationError] for a message without
    it, [SessionExpiredError] when no message can be read; nothing else. *)
Theorem elect_classifies_answer
  {E : Environment}
  (depth : nat) (session : Session) (course : Course.t) (s : io) :
  (fst (elect depth session course s) = Ok tt <->
   exists s1 resp s2 msg,
     solve_captcha depth session (announced course s) = (Ok tt, s1)
     /\ http (elect_request session course) s1 = (Ok resp, s2)
     /\ msgTips (html resp) = Some msg
     /\ contains success_marker msg = true)
  /\ (forall s1 resp s2,
        solve_captcha depth session (announced course s) = (Ok tt, s1) ->
        http (elect_request session course) s1 = (Ok resp, s2) ->
        fst (elect depth session course s) = classify resp
        /\ (fst (elect depth session course s) = Ok tt <->
            exists msg, msgTips (html resp) = Some msg
                        /\ contains success_marker msg = true)
        /\ (fst (elect depth session course s) = Raise IllegalOperationError <->
            exists msg, msgTips (html resp) = Some msg
                        /\ contains success_marker msg = false)
        /\ (fst (elect depth session course s) = Raise SessionExpiredError <->
            msgTips (html resp) = None)).
Proof.
  split.
  - split.
    + apply elect_ok_inv.
    + intros (s1 & resp & s2 & msg & Hc & Hh & Hm & Hin).
      rewrite (elect_after_answer _ _ _ _ _ _ _ Hc Hh).
      unfold classify. rewrite Hm, Hin. reflexivity.
  - intros s1 resp s2 Hc Hh.
    rewrite (elect_after_answer _ _ _ _ _ _ _ Hc Hh). unfold classify.
    destruct (msgTips (html resp)) as [msg | ].
    + destruct (contains success_marker msg) eqn:Hin;
        (split; [ reflexivity | split; [ | split ] ]); split;
        try discriminate; try (intros (m & Hm & Hf); congruence).
      * intros _. exists msg. split; [reflexivity | exact Hin].
      * intros _. exists msg. split; [reflexivity | exact Hin].
    + (split; [ reflexivity | split; [ | split ] ]); split;
        try discriminate; try (intros (m & Hm & Hf); congruence).
      all: try reflexivity.
Qed.

Lemma elect_classifies_answer_witness :
  fst (elect 1 a_session intro_cs_7
         (fresh [captcha_image; captcha_valid; refused]))
  = Raise IllegalOperationError.
Proof.
  destruct (elect_classifies_answer (E := scripted) 1 a_session intro_cs_7
              (fresh [captcha_image; captcha_valid; refused])) as [_ H].
  destruct (H (@Build_io scripted [refused]
                 [Log DEBUG Msg_attempt_captcha;
                  Log INFO (Msg_attempt_elect "Intro CS")])
              {| status_code := 200; content := ""; json_body := None;
                 html := {| datagrid := None; msgTips := Some "conflict"%string |} |}
              (@Build_io scripted []
                 [Log DEBUG Msg_attempt_captcha;
                  Log INFO (Msg_attempt_elect "Intro CS")])
              eq_refl eq_refl) as (_ & _ & Hill & _).
  apply Hill. exists "conflict"%string. split; reflexivity.
Defined.

(** * The CAPTCHA gate *)

(** The state in which [solve_captcha] requests the image. *)
Lemma solve_captcha_unfold {E : Environment}
  (depth : nat) (session : Session) (s s1 s2 : io) (img resp : response) :
  http (captcha_request session)
       {| world := world s;
          trace := Log DEBUG Msg_attempt_captcha :: trace s |}
  = (Ok img, s1) ->
  http (submit_request session (recognize_captcha (content img))) s1
  = (Ok resp, s2) ->
  solve_captcha (S depth) session s
  = try_except
      (valid <- of_result (doc <-? resp_json resp ;; subscript doc "valid") ;;
       if differs_from_str valid "2" then solve_captcha depth session
       else ret tt)
      on_value_error s2.
Proof.
  intros H1 H2. cbn [solve_captcha]. unfold bind at 1. unfold logger, emit.
  unfold bind at 1. rewrite H1. unfold bind at 1. rewrite H2. reflexivity.
Qed.

(** While the portal rejects the answer, [solve_captcha] asks for a new
    image and tries again; after [n] rejections an accepted answer ends
    it. *)
Lemma solve_captcha_retries (n : nat) (rest : list reply) (tr : list event) :
  solve_captcha (E := scripted) (S n) a_session
    (@Build_io scripted (captcha_rounds n ++ rest) tr)
  = (Ok tt,
     @Build_io scripted rest
       (repeat (Log DEBUG Msg_attempt_captcha) (S n) ++ tr)).
Proof.
  revert tr. induction n as [ | n IH]; intros tr.
  - reflexivity.
  - erewrite (solve_captcha_unfold (E := scripted));
      [ | reflexivity | reflexivity ].
    unfold try_except, bind, of_result.
    cbn [resp_json json_body rbind captcha_invalid json_page].
    change (subscript (JObj [("valid"%string, JStr "0")]) "valid")
      with (Ok (JStr "0")).
    change (differs_from_str (JStr "0") "2") with true. cbv iota beta.
    rewrite IH.
    replace (repeat (Log DEBUG Msg_attempt_captcha) (S (S n)))
      with (repeat (Log DEBUG Msg_attempt_captcha) (S n)
            ++ [Log DEBUG Msg_attempt_captcha]).
    + rewrite <- app_assoc. reflexivity.
    + change [Log DEBUG Msg_attempt_captcha]
        with (repeat (Log DEBUG Msg_attempt_captcha) 1).
      rewrite <- repeat_app. f_equal. lia.
Qed.

(** An answer that is not JSON ends the retries with
    [SessionExpiredError]. *)
Lemma solve_captcha_expired {E : Environment}
  (depth : nat) (session : Session) (s s1 s2 : io) (img resp : response) :
  http (captcha_request session)
       {| world := world s;
          trace := Log DEBUG Msg_attempt_captcha :: trace s |}
  = (Ok img, s1) ->
  http (submit_request session (recognize_captcha (content img))) s1
  = (Ok resp, s2) ->
  json_body resp = None ->
  solve_captcha (S depth) session s = (Raise SessionExpiredError, s2).
Proof.
  intros H1 H2 Hj. rewrite (solve_captcha_unfold _ _ _ _ _ _ _ H1 H2).
  unfold try_except, bind, of_result, resp_json. rewrite Hj. reflexivity.
Qed.

(** C8 (the code departs from the claim). [solve_captcha] lets errors other
    than [SessionExpiredError] out: a transport failure of the image
    request or of the submission leaves it as [RequestException], and a
    JSON answer without the [valid] field as [KeyError]; in [main] no
    clause catches them and the run ends with targets still pending. *)
Theorem solve_captcha_lets_other_errors_out :
  fst (solve_captcha 3 a_session (fresh [Unreachable]))
  = Raise RequestException
  /\ fst (solve_captcha 3 a_session (fresh [captcha_image; Unreachable]))
     = Raise RequestException
  /\ fst (solve_captcha 3 a_session
            (fresh [captcha_image; json_page (JObj [])]))
     = Raise KeyError
  /\ ending (main (E := scripted) "1900012345" "secret" 3 3
               (login_ok ++ [directory [algebra_row "50/49"]; Unreachable])
               [algebra])
     = (Ok tt, [algebra], Some (Log ERROR (Msg_uncaught RequestException))).
Proof.
  repeat split; vm_compute; reflexivity.
Qed.

(** * Session acquisition *)

(** C9 (the code departs from the claim). [get_elective_session] lets a
    third kind of error out: when the identity provider's answer is not
    JSON, [r.json()] raises [ValueError], which the [except KeyError]
    clause of [get_iaaa_token] does not catch; an answer that is JSON but
    not an object leaves as [TypeError].  In [main] neither is caught, and
    the run ends with every target still pending. *)
Theorem get_elective_session_lets_value_error_out :
  fst (get_elective_session "1900012345" "secret"
         (fresh [html_page 502 no_soup]))
  = Raise ValueError
  /\ fst (get_elective_session "1900012345" "secret"
            (fresh [json_page (JArr [])]))
     = Raise TypeError
  /\ ending (main (E := scripted) "1900012345" "secret" 3 3 [html_page 502 no_soup]
               [algebra; biology])
     = (Ok tt, [algebra; biology],
        Some (Log ERROR (Msg_uncaught ValueError))).
Proof.
  repeat split; vm_compute; reflexivity.
Qed.

(** * What the portal functions can raise and write *)

Section Stage_facts.

Context {E : Environment}.

Lemma solve_captcha_not_illegal (depth : nat) (session : Session) (s s' : io) :
  solve_captcha depth session s <> (Raise IllegalOperationError, s').
Proof.
  revert s. induction depth as [ | depth IH]; intros s; simpl.
  - unfold of_result. discriminate.
  - unfold bind at 1. unfold logger, emit.
    unfold bind at 1.
    destruct (http (captcha_request session) _) as [[img | e | ] s1] eqn:H1;
      [ | unfold http in H1; destruct (send _ _) as [[ | ?] ?];
          inversion H1; subst; discriminate
        | discriminate ].
    unfold bind at 1.
    destruct (http (submit_request session _) s1) as [[resp | e | ] s2] eqn:H2;
      [ | unfold http in H2; destruct (send _ _) as [[ | ?] ?];
          inversion H2; subst; discriminate
        | discriminate ].
    unfold try_except, bind, of_result.
    destruct (doc <-? resp_json resp;; subscript doc "valid")
      as [valid | e | ] eqn:Hv.
    + destruct (differs_from_str valid "2").
      * destruct (solve_captcha depth session s2) as [[[] | e | ] s3] eqn:H3;
          try discriminate.
        intros Habs. destruct e; simpl in Habs; try discriminate.
        injection Habs as <-. apply (IH _ H3).
      * unfold ret. discriminate.
    + destruct e; simpl; unfold raise; try discriminate.
      unfold resp_json, subscript in Hv.
      destruct (json_body resp) as [[ | | | | | fs] | ]; simpl in Hv;
        try discriminate.
      destruct (assoc "valid" fs); discriminate.
    + discriminate.
Qed.

(** [elect] first announces the attempt, then writes quiet records only;
    [Successfully elected] is the last one when it returns, [Failed to
    elect] when it raises [IllegalOperationError]. *)
Lemma elect_trace
  (depth : nat) (session : Session) (course : Course.t)
  (s s' : io) (r : result unit) :
  elect depth session course s = (r, s') ->
  exists new,
    trace s' = new ++ Log INFO (Msg_attempt_elect (Course.name course)) :: trace s
    /\ Forall quiet new
    /\ (r = Ok tt ->
        exists new', new = Log INFO (Msg_elected (Course.name course)) :: new')
    /\ (r = Raise IllegalOperationError ->
        exists msg new',
          new = Log INFO (Msg_failed_elect (Course.name course) msg) :: new').
Proof.
  unfold elect. unfold bind at 1. unfold logger at 1, emit.
  fold (announced course s). unfold bind at 1.
  destruct (solve_captcha depth session (announced course s))
    as [[[] | e | ] s1] eqn:Hc;
    destruct (solve_captcha_quiet _ _ _ _ _ Hc) as [new1 [E1 F1]];
    simpl in E1.
  - unfold bind at 1. unfold try_except, bind at 1.
    unfold http.
    destruct (send (elect_request session course) (world s1))
      as [[ | resp] w].
    + simpl. intros H. injection H as <- <-. exists new1. simpl.
      repeat split; try assumption; discriminate.
    + unfold of_result, msg_tips_text.
      destruct (msgTips (html resp)) as [msg | ]; simpl.
      * destruct (contains success_marker msg).
        -- unfold logger, emit. simpl. intros H. injection H as <- <-.
           exists (Log INFO (Msg_elected (Course.name course)) :: new1).
           simpl. rewrite E1.
           repeat split; try discriminate.
           ++ constructor; [exact I | exact F1].
           ++ intros _. exists new1. reflexivity.
        -- unfold bind, logger, emit, raise. simpl.
           intros H. injection H as <- <-.
           exists (Log INFO (Msg_failed_elect (Course.name course) msg) :: new1).
           simpl. rewrite E1.
           repeat split; try discriminate.
           ++ constructor; [exact I | exact F1].
           ++ intros _. exists msg, new1. reflexivity.
      * unfold raise. intros H. injection H as <- <-. exists new1. simpl.
        repeat split; try assumption; discriminate.
  - intros H. injection H as <- <-. exists new1.
    repeat split; try assumption; try discriminate.
    intros He. exfalso. injection He as ->.
    exact (solve_captcha_not_illegal _ _ _ _ Hc).
  - intros H. injection H as <- <-. exists new1.
    repeat split; try assumption; discriminate.
Qed.

(** [get_courses] first announces the fetch, then writes quiet records. *)
Lemma get_courses_trace
  (session : Session) (s s' : io) (r : result (list Course.t)) :
  get_courses session s = (r, s') ->
  exists new,
    trace s' = new ++ Log DEBUG Msg_attempt_courses :: trace s
    /\ Forall quiet new.
Proof.
  unfold get_courses. unfold bind at 1. unfold logger at 1, emit.
  match goal with
  | |- ?m ?s0 = _ -> _ =>
      assert (Hq : emits_quietly m) by quietly;
      intros H; destruct (Hq _ _ _ H) as [new [E1 F1]]
  end.
  exists new. split; assumption.
Qed.

Lemma parse_items_raises (items : list (list td)) (e : exn) :
  parse_items items = Raise e ->
  e = IndexError \/ e = ValueError \/ e = TypeError \/ e = KeyError.
Proof.
  induction items as [ | item rest IH]; simpl; [ discriminate | ].
  destruct (parse_item item) as [course | e' | ] eqn:Hi; simpl.
  - destruct (parse_items rest) as [cs | e' | ]; simpl; try discriminate.
    intros H. injection H as ->. apply IH. reflexivity.
  - intros H. injection H as ->. clear IH. unfold parse_item in Hi.
    repeat match type of Hi with
           | rbind (index ?l ?i) _ = _ =>
               unfold index at 1 in Hi;
               destruct (nth_error l i); simpl in Hi;
               [ | injection Hi as <-; auto ]
           end.
    unfold unpack_slots, int in Hi.
    destruct (str_split "/" _) as [ | a [ | b [ | c l]]]; simpl in Hi;
      try (injection Hi as <-; auto; fail).
    destruct (py_int a); simpl in Hi; [ | injection Hi as <-; auto ].
    destruct (py_int b); simpl in Hi; [ | injection Hi as <-; auto ].
    unfold index at 1 in Hi.
    destruct (nth_error item 10) as [d10 | ]; simpl in Hi;
      [ | injection Hi as <-; auto ].
    unfold href_of in Hi.
    destruct (anchor d10) as [[h | ] | ]; simpl in Hi;
      try discriminate; injection Hi as <-; auto.
  - discriminate.
Qed.

(** What [get_courses] can raise. *)
Lemma get_courses_raises
  (session : Session) (s s' : io) (e : exn) :
  get_courses session s = (Raise e, s') ->
  e = NetworkError \/ e = SessionExpiredError
  \/ e = IndexError \/ e = TypeError \/ e = KeyError.
Proof.
  unfold get_courses. unfold bind at 1. unfold logger at 1, emit.
  unfold bind at 1. unfold try_except at 1. unfold http.
  destruct (send _ _) as [[ | resp] w]; simpl.
  - unfold bind, logger, emit, raise. simpl. intros H. injection H as <- _.
    auto.
  - unfold try_except, of_result.
    destruct (datagrid (html resp)) as [rows | ]; simpl.
    + destruct (parse_items rows) as [cs | e' | ] eqn:Hp; try discriminate.
      destruct (parse_items_raises _ _ Hp) as [-> | [-> | [-> | ->]]];
        simpl; unfold bind, logger, emit, raise; simpl;
        intros H; injection H as <- _; auto.
    + unfold bind, logger, emit, raise; simpl.
      intros H; injection H as <- _; auto.
Qed.

Lemma search_raises (courses : list Course.t) (t : Target.t) (e : exn) :
  search_result courses t = Raise e -> e = ValueError.
Proof.
  induction courses as [ | course rest IH]; simpl; [ discriminate | ].
  destruct (matches course t) as [keep | e' | ] eqn:Hm; simpl.
  - destruct (search_result rest t) as [found | e' | ]; simpl; try discriminate.
    intros H. injection H as ->. apply IH. reflexivity.
  - intros H. injection H as ->. unfold matches, int in Hm.
    destruct (String.eqb _ _); [ | discriminate ].
    destruct (py_int (Course.classID course)); simpl in Hm;
      [ | congruence ].
    destruct (py_int (Target.classID t)); simpl in Hm; [ | congruence ].
    destruct (_ =? _); discriminate.
  - discriminate.
Qed.

End Stage_facts.

(** * The working target list *)






Lemma count_occ_remove_first (x t : Target.t) (l : list Target.t) :
  In x l ->
  (count_occ Target.eq_dec (remove_first x l) t
   + (if Target.eq_dec x t then 1 else 0)
   = count_occ Target.eq_dec l t)%nat.
Proof.
  induction l as [ | y l IH]; simpl; [ intros [] | ].
  intros Hin. destruct (Target.eq_dec y x) as [-> | Hyx].
  - destruct (Target.eq_dec x t); lia.
  - destruct Hin as [-> | Hin]; [ congruence | ].
    simpl. specialize (IH Hin). destruct (Target.eq_dec y t); lia.
Qed.

Lemma quiet_harmless (e : event) : quiet e -> harmless e.
Proof. destruct e; simpl; auto. Qed.

Section Machine_facts.

Context {E : Environment}.

Lemma lift_run {A : Type} (m : M io A) (s : machine) :
  lift m s
  = (fst (m (outside s)),
     {| outside := snd (m (outside s)); targets := targets s;
        target := target s; session_expired := session_expired s;
        sess := sess s |}).
Proof. unfold lift. destruct (m (outside s)); reflexivity. Qed.

Lemma targets_remove_in (x : Target.t) (s : machine) :
  In x (targets s) ->
  targets_remove x s
  = (Ok tt,
     {| outside := {| world := world (outside s);
                      trace := Removed x :: trace (outside s) |};
        targets := remove_first x (targets s);
        target := target s; session_expired := session_expired s;
        sess := sess s |}).
Proof.
  intros Hin. unfold targets_remove.
  destruct (in_dec Target.eq_dec x (targets s)); [ reflexivity | contradiction ].
Qed.

Lemma targets_remove_not_in (x : Target.t) (s : machine) :
  ~ In x (targets s) -> targets_remove x s = (Raise ValueError, s).
Proof.
  intros Hin. unfold targets_remove.
  destruct (in_dec Target.eq_dec x (targets s)); [ contradiction | reflexivity ].
Qed.



Lemma elect_harmless (depth : nat) (session : Session) (course : Course.t) :
  emits_harmless (elect depth session course).
Proof.
  intros s r s' H. destruct (elect_trace _ _ _ _ _ _ H) as (new & E1 & F1 & _).
  exists (new ++ [Log INFO (Msg_attempt_elect (Course.name course))]).
  rewrite <- app_assoc. split; [ exact E1 | ].
  apply Forall_app. split.
  - eapply Forall_impl; [ | exact F1 ]. exact quiet_harmless.
  - constructor; [ exact I | constructor ].
Qed.

Variable rows : list Target.t.












End Machine_facts.

Section Loop_invariant.

Context {E : Environment}.

Variable rows : list Target.t.












End Loop_invariant.





(** * The scan, step by step *)

Section Scan_steps.

Context {E : Environment}.

Variable depth : nat.
Variable session : Session.
Variable courses : list Course.t.

Lemma for_course_full (course : Course.t) (rest : list Course.t)
  (t : Target.t) (s : machine) :
  electable course = false ->
  for_course depth session (course :: rest) t s
  = for_course depth session rest t s.
Proof.
  intros Hfull. unfold electable in Hfull. cbn [for_course].
  rewrite Hfull. reflexivity.
Qed.

Lemma for_course_electable (course : Course.t) (rest : list Course.t)
  (t : Target.t) (s : machine) :
  electable course = true ->
  for_course depth session (course :: rest) t s
  = match elect depth session course (log_to (discovered course) (outside s)) with
    | (Ok _, o) =>
        if in_dec Target.eq_dec t (targets s)
        then for_course depth session rest t (without t (with_outside s o))
        else (Raise ValueError, with_outside s o)
    | (Raise e, o) => (Raise e, with_outside s o)
    | (OutOfFuel, o) => (OutOfFuel, with_outside s o)
    end.
Proof.
  intros Hfree. unfold electable in Hfree. cbn [for_course].
  rewrite Hfree. unfold bind at 1. unfold bind at 1.
  rewrite lift_run. cbn [fst snd logger emit].
  unfold bind at 1. rewrite lift_run. cbn [outside].
  fold (discovered course). fold (log_to (discovered course) (outside s)).
  destruct (elect depth session course _) as [[[] | e | ] o]; cbn [fst snd];
    try reflexivity.
  unfold targets_remove. cbn [targets].
  destruct (in_dec Target.eq_dec t (targets s)); reflexivity.
Qed.

Lemma for_target_body_eq (t : Target.t) (s : machine) :
  for_target_body depth session courses t s
  = match search_result courses t with
    | Ok [] =>
        let o := log_to (Log WARNING (Msg_not_found (Target.courseName t)))
                   (outside s) in
        if in_dec Target.eq_dec t (targets s)
        then (Ok tt, without t (with_outside s o))
        else (Raise ValueError, with_outside s o)
    | Ok found => for_course depth session found t s
    | Raise e => (Raise e, s)
    | OutOfFuel => (OutOfFuel, s)
    end.
Proof.
  unfold for_target_body. unfold bind at 1, of_result.
  destruct (search_result courses t) as [[ | course found] | e | ]; try reflexivity.
  unfold bind at 1. unfold bind at 1. rewrite lift_run.
  cbn [fst snd logger emit]. unfold targets_remove. cbn [targets].
  destruct (in_dec Target.eq_dec t (targets s)); reflexivity.
Qed.

Lemma for_target_eq (n i : nat) (s : machine) :
  for_target depth session courses (S n) i s
  = match nth_error (targets s) i with
    | None => (Ok tt, s)
    | Some t =>
        match for_target_body depth session courses t (visiting t s) with
        | (Ok _, s1) => for_target depth session courses n (S i) s1
        | (Raise e, s1) => (Raise e, s1)
        | (OutOfFuel, s1) => (OutOfFuel, s1)
        end
    end.
Proof.
  cbn [for_target]. destruct (nth_error (targets s) i) as [t | ];
    [ | reflexivity ].
  unfold bind at 1. unfold set_target. unfold bind at 1.
  rewrite lift_run. cbn [fst snd emit outside targets target
                           session_expired sess].
  fold (log_to (For_target t) (outside s)). fold (visiting t s).
  unfold bind at 1.
  destruct (for_target_body depth session courses t (visiting t s))
    as [[[] | e | ] s1]; reflexivity.
Qed.

End Scan_steps.

(** * Election attempts *)

(** Splits a conjunction into its parts, and nothing else. *)
Ltac conj := repeat match goal with |- _ /\ _ => split end.

Lemma attempts_app (a b : list event) :
  attempts (a ++ b) = (attempts a + attempts b)%nat.
Proof.
  induction a as [ | e a IH]; simpl; [ reflexivity | ].
  destruct e as [l m | | | ]; try exact IH.
  destruct m; simpl; try exact IH. rewrite IH. reflexivity.
Qed.

Lemma attempts_quiet (new : list event) :
  Forall quiet new -> attempts new = 0%nat.
Proof.
  induction 1 as [ | e new He _ IH]; simpl; [ reflexivity | ].
  destruct e as [l m | | | ]; try destruct He.
  destruct m; simpl in *; solve [ exact IH | destruct He ].
Qed.

Lemma quiet_settled (e : event) : quiet e -> settled e.
Proof. destruct e; simpl; auto. Qed.

Section Attempts.

Context {E : Environment}.

Variable depth : nat.
Variable session : Session.

(** What one pass over the matches of a target writes: at most one
    attempt per electable match, at least one when there is such a match,
    and no binding of the loop variable. *)
Lemma for_course_attempts
  (found : list Course.t) (t : Target.t) (s s' : machine) (r : result unit) :
  for_course depth session found t s = (r, s') ->
  exists new,
    events s' = new ++ events s
    /\ (attempts new <= count_electable found)%nat
    /\ (1 <= count_electable found -> 1 <= attempts new)%nat
    /\ Forall settled new
    /\ target s' = target s.
Proof.
  revert s. induction found as [ | course rest IH]; intros s.
  - simpl. intros H. injection H as <- <-. exists [].
    unfold count_electable. conj; simpl; try lia; try reflexivity.
    constructor.
  - destruct (electable course) eqn:Hel.
    + rewrite for_course_electable by exact Hel.
      unfold count_electable. simpl. rewrite Hel. simpl.
      fold (count_electable rest).
      destruct (elect depth session course _) as [re o] eqn:Helect.
      destruct (elect_trace _ _ _ _ _ _ Helect) as (newe & Ee & Fe & _).
      simpl in Ee.
      assert (Hmid : events (with_outside s o)
                     = (newe ++ [Log INFO (Msg_attempt_elect (Course.name course));
                                 discovered course]) ++ events s).
      { unfold events. simpl. rewrite Ee, <- app_assoc. reflexivity. }
      assert (Hatt : attempts (newe ++ [Log INFO (Msg_attempt_elect (Course.name course));
                                 discovered course]) = 1%nat).
      { rewrite attempts_app, (attempts_quiet _ Fe). reflexivity. }
      assert (Hset : Forall settled
                       (newe ++ [Log INFO (Msg_attempt_elect (Course.name course));
                                 discovered course])).
      { apply Forall_app. split.
        - eapply Forall_impl; [ | exact Fe ]. exact quiet_settled.
        - repeat constructor. }
      assert (Hstop : forall r0 : result unit,
                 (r0, with_outside s o) = (r, s') ->
                 exists new,
                   events s' = new ++ events s
                   /\ (attempts new <= S (count_electable rest))%nat
                   /\ (1 <= S (count_electable rest) -> 1 <= attempts new)%nat
                   /\ Forall settled new
                   /\ target s' = target s).
      { intros r0 H. injection H as <- <-. eexists. split; [ exact Hmid | ].
        rewrite Hatt. conj; try lia; try reflexivity. exact Hset. }
      destruct re as [[] | e | ]; try (apply Hstop).
      destruct (in_dec Target.eq_dec t (targets s)); [ | apply Hstop ].
      intros H. destruct (IH _ H) as (newr & Er & Ar & _ & Sr & Tr).
      exists (newr ++ Removed t
                :: newe ++ [Log INFO (Msg_attempt_elect (Course.name course));
                            discovered course]).
      split.
      { rewrite Er. unfold events in *. simpl. simpl in Hmid. rewrite Hmid.
        rewrite <- (app_assoc newr). reflexivity. }
      rewrite attempts_app. simpl. rewrite Hatt.
      conj; try lia.
      * apply Forall_app. split; [ exact Sr | ].
        constructor; [ exact I | exact Hset ].
      * rewrite Tr. reflexivity.
    + rewrite for_course_full by exact Hel.
      unfold count_electable. simpl. rewrite Hel.
      fold (count_electable rest). apply IH.
Qed.

End Attempts.

Lemma count_electable_pos (found : list Course.t) :
  (exists course,
     In course found /\ Course.used_slots course < Course.max_slots course) ->
  (1 <= count_electable found)%nat.
Proof.
  intros (course & Hin & Hlt). unfold count_electable.
  assert (Hf : In course (filter electable found)).
  { apply filter_In. split; [ exact Hin | ].
    unfold electable. apply Z.ltb_lt. exact Hlt. }
  destruct (filter electable found); [ destruct Hf | simpl; lia ].
Qed.

Section Visits.

Context {E : Environment}.

Variable depth : nat.
Variable session : Session.
Variable courses : list Course.t.

(** What the visit of one target writes. *)
Lemma for_target_body_trace (t : Target.t) (s s' : machine) (r : result unit) :
  for_target_body depth session courses t s = (r, s') ->
  exists new,
    events s' = new ++ events s /\ Forall settled new
    /\ target s' = target s
    /\ forall found,
         search_result courses t = Ok found ->
         (attempts new <= count_electable found)%nat
         /\ (1 <= count_electable found -> 1 <= attempts new)%nat.
Proof.
  rewrite for_target_body_eq.
  destruct (search_result courses t) as [[ | course found] | e | ] eqn:Hsearch.
  - cbv zeta.
    destruct (in_dec Target.eq_dec t (targets s)); intros H;
      injection H as <- <-.
    + exists [Removed t; Log WARNING (Msg_not_found (Target.courseName t))].
      conj; try reflexivity; [ repeat constructor | ].
      intros found H; injection H as <-.
      unfold count_electable; simpl; lia.
    + exists [Log WARNING (Msg_not_found (Target.courseName t))].
      conj; try reflexivity; [ repeat constructor | ].
      intros found H; injection H as <-.
      unfold count_electable; simpl; lia.
  - intros H.
    destruct (for_course_attempts _ _ _ _ _ _ _ H) as (new & E1 & A1 & A2 & S1 & T1).
    exists new. conj; try assumption.
    intros found' Hf. injection Hf as <-. split; assumption.
  - intros H. injection H as <- <-. exists []. conj; try reflexivity.
    + constructor.
    + discriminate.
  - intros H. injection H as <- <-. exists []. conj; try reflexivity.
    + constructor.
    + discriminate.
Qed.

(** What the rest of a scan writes starts with the next binding of the
    loop variable, if it writes anything. *)
Lemma for_target_trace (n i : nat) (s s' : machine) (r : result unit) :
  for_target depth session courses n i s = (r, s') ->
  exists later,
    events s' = later ++ events s
    /\ (later = [] \/ exists u later', later = later' ++ [For_target u]).
Proof.
  revert i s. induction n as [ | n IH]; intros i s.
  - simpl. intros H. injection H as <- <-. exists []. split; auto.
  - rewrite for_target_eq.
    destruct (nth_error (targets s) i) as [t | ].
    + destruct (for_target_body depth session courses t (visiting t s))
        as [rb s1] eqn:Hbody.
      destruct (for_target_body_trace _ _ _ _ Hbody) as (new & E1 & _).
      assert (Hstop : forall r0 : result unit,
                 (r0, s1) = (r, s') ->
                 exists later,
                   events s' = later ++ events s
                   /\ (later = []
                       \/ exists u later', later = later' ++ [For_target u])).
      { intros r0 H. injection H as <- <-. exists (new ++ [For_target t]).
        split.
        - rewrite E1, <- app_assoc. reflexivity.
        - right. exists t, new. reflexivity. }
      destruct rb as [[] | e | ]; try apply Hstop.
      intros H. destruct (IH _ _ H) as (later & E2 & _).
      exists (later ++ new ++ [For_target t]). split.
      * rewrite E2, E1, <- !app_assoc. reflexivity.
      * right. exists t, (later ++ new). rewrite <- app_assoc. reflexivity.
    + intros H. injection H as <- <-. exists []. split; auto.
Qed.

End Visits.

(** C2 (as amended). When the scan of an iteration reaches a target [t]
    whose matches in the fetched directory include a course with
    [used_slots < max_slots], then between the binding of [t] and the next
    binding (or the end of the scan) at least one election attempt is
    announced and at most one per electable match: exactly one when exactly
    one match is electable. *)
Theorem reached_target_is_attempted
  {E : Environment}
  (depth : nat) (session : Session) (courses found : list Course.t)
  (n i : nat) (t : Target.t) (s s' : machine) (r : result unit)
  (Hreach : nth_error (targets s) i = Some t)
  (Hfound : search_result courses t = Ok found)
  (Hfree : exists course,
      In course found /\ Course.used_slots course < Course.max_slots course)
  (Hrun : for_target depth session courses (S n) i s = (r, s')) :
  exists mine later,
    events s' = later ++ mine ++ For_target t :: events s
    /\ Forall settled mine
    /\ (later = [] \/ exists u later', later = later' ++ [For_target u])
    /\ (1 <= attempts mine <= count_electable found)%nat
    /\ (count_electable found = 1%nat -> attempts mine = 1%nat).
Proof.
  pose proof (count_electable_pos found Hfree) as Hpos.
  rewrite for_target_eq, Hreach in Hrun.
  destruct (for_target_body depth session courses t (visiting t s))
    as [rb s1] eqn:Hbody.
  destruct (for_target_body_trace _ _ _ _ _ _ _ Hbody)
    as (mine & E1 & S1 & _ & Hatt).
  destruct (Hatt found Hfound) as [Hle Hge]. specialize (Hge Hpos).
  assert (Hstop : forall r0 : result unit,
             (r0, s1) = (r, s') ->
             exists mine later,
               events s' = later ++ mine ++ For_target t :: events s
               /\ Forall settled mine
               /\ (later = []
                   \/ exists u later', later = later' ++ [For_target u])
               /\ (1 <= attempts mine <= count_electable found)%nat
               /\ (count_electable found = 1%nat -> attempts mine = 1%nat)).
  { intros r0 H. injection H as <- <-. exists mine, [].
    split; [ exact E1 | ]. conj; auto; lia. }
  destruct rb as [[] | e | ]; try (apply (Hstop _ Hrun)).
  destruct (for_target_trace _ _ _ _ _ _ _ _ Hrun) as (later & E2 & Hlater).
  exists mine, later. split; [ rewrite E2, E1; reflexivity | ].
  conj; auto; lia.
Qed.

Lemma reached_target_is_attempted_witness :
  let s0 := logged_in (captcha_rounds 0 ++ [elected]) [biology] in
  let s1 := snd (for_target 3 a_session [biology_course] 2 0 s0) in
  exists mine later,
    events s1 = later ++ mine ++ For_target biology :: events s0
    /\ Forall settled mine
    /\ (later = [] \/ exists u later', later = later' ++ [For_target u])
    /\ (1 <= attempts mine <= count_electable [biology_course])%nat
    /\ (count_electable [biology_course] = 1%nat -> attempts mine = 1%nat).
Proof.
  intros s0 s1.
  apply (reached_target_is_attempted (E := scripted)
           3 a_session [biology_course] [biology_course] 1 0 biology s0 s1
           (fst (for_target 3 a_session [biology_course] 2 0 s0))).
  - reflexivity.
  - reflexivity.
  - exists biology_course. split; [ left; reflexivity | simpl; lia ].
  - apply surjective_pairing.
Defined.

(** C2 (as stated, refuted). Two targets are pending and the directory
    lists an electable course for each.  The election of the first ends
    with [SessionExpiredError]; the iteration is abandoned and no attempt
    is made for the second.  And when the directory lists the same
    electable course twice, two attempts are made for the one target. *)
Lemma one_attempt_per_iteration_fails :
  let s0 := logged_in
              ([directory [algebra_row "50/49"; biology_row "50/49"]]
               ++ captcha_rounds 0 ++ [no_message])
              [algebra; biology] in
  let s0' := logged_in
               ([directory [algebra_row "50/49"; algebra_row "50/49"]]
                ++ captcha_rounds 0 ++ [elected]
                ++ captcha_rounds 0 ++ [elected])
               [algebra] in
  (In biology (targets s0)
   /\ fst (get_courses a_session (log_to (Log DEBUG Msg_refreshing) (outside s0)))
      = Ok [algebra_course; biology_course]
   /\ search_result [algebra_course; biology_course] biology = Ok [biology_course]
   /\ electable biology_course = true
   /\ attempts_of "Biology" (events (snd (iteration 3 s0))) = 0%nat
   /\ attempts_of "Biology" (events (snd (iteration 3 s0))) <> 1%nat)
  /\ (fst (get_courses a_session (log_to (Log DEBUG Msg_refreshing) (outside s0')))
      = Ok [algebra_course; algebra_course]
      /\ search_result [algebra_course; algebra_course] algebra
         = Ok [algebra_course; algebra_course]
      /\ attempts_of "Algebra" (events (snd (iteration 3 s0'))) = 2%nat
      /\ attempts_of "Algebra" (events (snd (iteration 3 s0'))) <> 1%nat).
Proof.
  cbv zeta. split.
  - split; [ right; left; reflexivity | ].
    repeat split; try (vm_compute; reflexivity); vm_compute; discriminate.
  - repeat split; try (vm_compute; reflexivity); vm_compute; discriminate.
Qed.

(** * Electable matches *)

(** C7. A match is put to election exactly when [used_slots < max_slots]:
    for such a match the attempt is announced right after the discovery
    record; a match with [max_slots <= used_slots] is passed over without
    any effect; and when every match of a target is full, the visit of the
    target changes nothing: no attempt is made and the target stays in the
    working list. *)
Theorem electable_exactly_when_slot_free
  {E : Environment}
  (depth : nat) (session : Session) (courses : list Course.t)
  (course : Course.t) (rest : list Course.t) (t : Target.t) (s : machine) :
  (electable course = true <->
   Course.used_slots course < Course.max_slots course)
  /\ (Course.used_slots course < Course.max_slots course ->
      exists new,
        events (snd (for_course depth session (course :: rest) t s))
        = new ++ Log INFO (Msg_attempt_elect (Course.name course))
              :: discovered course :: events s)
  /\ (Course.max_slots course <= Course.used_slots course ->
      for_course depth session (course :: rest) t s
      = for_course depth session rest t s)
  /\ (forall found,
        search_result courses t = Ok found ->
        found <> [] ->
        Forall (fun c => Course.max_slots c <= Course.used_slots c) found ->
        for_target_body depth session courses t s = (Ok tt, s)
        /\ (In t (targets s) ->
            In t (targets (snd (for_target_body depth session courses t s))))
        /\ attempts (events (snd (for_target_body depth session courses t s)))
           = attempts (events s)).
Proof.
  split; [ apply Z.ltb_lt | ].
  split.
  { intros Hlt. apply Z.ltb_lt in Hlt. fold (electable course) in Hlt.
    rewrite for_course_electable by exact Hlt.
    destruct (elect depth session course _) as [re o] eqn:Helect.
    destruct (elect_trace _ _ _ _ _ _ Helect) as (newe & Ee & _).
    simpl in Ee.
    destruct re as [[] | e | ]; try (exists newe; exact Ee).
    destruct (in_dec Target.eq_dec t (targets s));
      [ | exists newe; exact Ee ].
    destruct (for_course depth session rest t _) as [r s'] eqn:Hrest.
    destruct (for_course_attempts _ _ _ _ _ _ _ Hrest) as (newr & Er & _).
    exists (newr ++ Removed t :: newe). simpl. rewrite Er.
    unfold events. simpl. rewrite Ee, <- app_assoc. reflexivity. }
  split.
  { intros Hge. apply for_course_full. unfold electable.
    apply Z.ltb_ge. exact Hge. }
  intros found Hsearch Hne Hfull.
  assert (Hbody : for_target_body depth session courses t s = (Ok tt, s)).
  { rewrite for_target_body_eq, Hsearch.
    destruct found as [ | c0 found0 ]; [ congruence | ].
    clear Hsearch Hne. revert Hfull.
    generalize (c0 :: found0). intros l Hfull.
    induction Hfull as [ | c l Hc _ IH]; [ reflexivity | ].
    rewrite for_course_full; [ exact IH | ].
    unfold electable. apply Z.ltb_ge. exact Hc. }
  rewrite Hbody. simpl. auto.
Qed.

Lemma electable_exactly_when_slot_free_witness :
  let s := logged_in [] [algebra] in
  for_target_body 3 a_session [algebra_full] algebra s = (Ok tt, s)
  /\ (In algebra (targets s) ->
      In algebra
        (targets (snd (for_target_body 3 a_session [algebra_full] algebra s))))
  /\ attempts (events (snd (for_target_body 3 a_session [algebra_full] algebra s)))
     = attempts (events s).
Proof.
  intros s.
  destruct (electable_exactly_when_slot_free (E := scripted)
              3 a_session [algebra_full] algebra_full [] algebra s)
    as (_ & _ & _ & H).
  apply (H [algebra_full]).
  - reflexivity.
  - discriminate.
  - constructor; [ simpl; lia | constructor ].
Defined.

(** * Failures inside the scan *)

Section Failures.

Context {E : Environment}.

Variable depth : nat.
Variable session : Session.
Variable courses : list Course.t.

(** Where [IllegalOperationError] and [SessionExpiredError] come from in
    the pass over the matches of a target. *)
Lemma for_course_failure
  (found : list Course.t) (t : Target.t) (s s' : machine) :
  Forall (fun course => Course.name course = Target.courseName t) found ->
  (for_course depth session found t s = (Raise IllegalOperationError, s') ->
   just_rejected t (events s'))
  /\ (for_course depth session found t s = (Raise SessionExpiredError, s') ->
      since_stage_start (events s')).
Proof.
  intros Hnames. revert s.
  induction Hnames as [ | course rest Hname _ IH]; intros s.
  - simpl. unfold ret. split; discriminate.
  - destruct (electable course) eqn:Hel.
    + rewrite for_course_electable by exact Hel.
      destruct (elect depth session course _) as [re o] eqn:Helect.
      destruct (elect_trace _ _ _ _ _ _ Helect) as (newe & Ee & Fe & _ & Hill).
      destruct re as [[] | e | ].
      * destruct (in_dec Target.eq_dec t (targets s));
          [ apply IH | split; discriminate ].
      * split; intros H; injection H as -> <-.
        -- destruct (Hill eq_refl) as (msg & new' & ->).
           exists msg. eexists. unfold events. simpl. rewrite Ee, Hname.
           reflexivity.
        -- exists newe. do 2 eexists. unfold events. simpl.
           split; [ exact Ee | ]. split; [ | exact Fe ].
           right. eexists. reflexivity.
      * split; discriminate.
    + rewrite for_course_full by exact Hel. apply IH.
Qed.

Lemma for_target_body_failure (t : Target.t) (s s' : machine) :
  (for_target_body depth session courses t s
   = (Raise IllegalOperationError, s') ->
   just_rejected t (events s'))
  /\ (for_target_body depth session courses t s
      = (Raise SessionExpiredError, s') ->
      since_stage_start (events s')).
Proof.
  rewrite for_target_body_eq.
  destruct (search_result courses t) as [[ | course found] | e | ] eqn:Hsearch.
  - cbv zeta. destruct (in_dec Target.eq_dec t (targets s)); split; discriminate.
  - apply for_course_failure. exact (search_name _ _ _ Hsearch).
  - rewrite (search_raises _ _ _ Hsearch). split; discriminate.
  - split; discriminate.
Qed.

Lemma for_target_failure (n i : nat) (s s' : machine) :
  (for_target depth session courses n i s = (Raise IllegalOperationError, s') ->
   exists t, target s' = Some t /\ just_rejected t (events s'))
  /\ (for_target depth session courses n i s = (Raise SessionExpiredError, s') ->
      since_stage_start (events s')).
Proof.
  revert i s. induction n as [ | n IH]; intros i s.
  - simpl. unfold of_result. split; discriminate.
  - rewrite for_target_eq.
    destruct (nth_error (targets s) i) as [t | ]; [ | split; discriminate ].
    destruct (for_target_body depth session courses t (visiting t s))
      as [rb s1] eqn:Hbody.
    destruct rb as [[] | e | ]; [ apply IH | | split; discriminate ].
    destruct (for_target_body_failure t (visiting t s) s1) as [Hill Hexp].
    destruct (for_target_body_trace _ _ _ _ _ _ _ Hbody) as (_ & _ & _ & Ht & _).
    split; intros H; injection H as -> <-.
    + exists t. split; [ rewrite Ht; reflexivity | exact (Hill Hbody) ].
    + exact (Hexp Hbody).
Qed.

End Failures.

Section Iteration_failures.

Context {E : Environment}.

Lemma refresh_and_scan_eq (depth : nat) (s : machine) :
  refresh_and_scan depth s
  = match sess s with
    | None => (Raise UnboundLocalError, s)
    | Some session =>
        match get_courses session (outside s) with
        | (Ok courses, o) =>
            for_target depth session courses
              (S (List.length (targets s))) 0 (with_outside s o)
        | (Raise e, o) => (Raise e, with_outside s o)
        | (OutOfFuel, o) => (OutOfFuel, with_outside s o)
        end
    end.
Proof.
  unfold refresh_and_scan. unfold bind at 1. unfold read at 1.
  destruct (sess s) as [session | ]; [ | reflexivity ].
  unfold bind at 1. rewrite lift_run.
  destruct (get_courses session (outside s)) as [[courses | e | ] o];
    reflexivity.
Qed.

Lemma refresh_and_scan_failure (depth : nat) (s s' : machine) :
  (refresh_and_scan depth s = (Raise IllegalOperationError, s') ->
   exists t, target s' = Some t /\ just_rejected t (events s'))
  /\ (refresh_and_scan depth s = (Raise SessionExpiredError, s') ->
      since_stage_start (events s')).
Proof.
  rewrite refresh_and_scan_eq.
  destruct (sess s) as [session | ]; [ | split; discriminate ].
  destruct (get_courses session (outside s)) as [rc o] eqn:Hget.
  destruct rc as [courses | e | ];
    [ apply for_target_failure | | split; discriminate ].
  split; intros H; injection H as -> <-.
  - destruct (get_courses_raises _ _ _ _ Hget)
      as [H | [H | [H | [H | H]]]]; discriminate H.
  - destruct (get_courses_trace _ _ _ _ Hget) as (new & E1 & F1).
    exists new. do 2 eexists. unfold events. simpl.
    split; [ exact E1 | ]. split; [ left; reflexivity | exact F1 ].
Qed.

Lemma iteration_eq (depth : nat) (s : machine) :
  iteration depth s
  = match try_except (refresh_and_scan depth) handlers (refreshed s) with
    | (Ok _, s1) => (Ok tt, with_outside s1 (log_to (Sleep 10) (outside s1)))
    | (Raise e, s1) => (Raise e, s1)
    | (OutOfFuel, s1) => (OutOfFuel, s1)
    end.
Proof.
  unfold iteration. unfold bind at 1. rewrite lift_run.
  cbn [fst snd logger emit]. fold (log_to (Log DEBUG Msg_refreshing) (outside s)).
  fold (with_outside s (log_to (Log DEBUG Msg_refreshing) (outside s))).
  fold (refreshed s). unfold bind at 1.
  destruct (try_except (refresh_and_scan depth) handlers (refreshed s))
    as [[[] | e | ] s1]; reflexivity.
Qed.

End Iteration_failures.

(** * Recovery from a rejected operation *)

(** C5 (as amended). When the scan of an iteration ends with
    [IllegalOperationError], the error comes from the election attempt of
    the target the loop variable holds; if that target is still in the
    working list, the handler removes its first occurrence and nothing
    else, every other target keeps its place, and the iteration ends
    there: after the warning and the removal only the sleep follows, so
    the remaining targets are not processed before the next iteration. *)
Theorem rejected_target_is_dropped_and_iteration_ends
  {E : Environment} (depth : nat) (s s1 : machine)
  (Hfail : refresh_and_scan depth (refreshed s)
           = (Raise IllegalOperationError, s1)) :
  exists t,
    target s1 = Some t
    /\ just_rejected t (events s1)
    /\ (In t (targets s1) ->
        exists s2,
          iteration depth s = (Ok tt, s2)
          /\ targets s2 = remove_first t (targets s1)
          /\ events s2
             = Sleep 10 :: Removed t
               :: Log WARNING (Msg_ignoring (Target.courseName t))
               :: events s1
          /\ (forall u, u <> t ->
                count_occ Target.eq_dec (targets s2) u
                = count_occ Target.eq_dec (targets s1) u)
          /\ (count_occ Target.eq_dec (targets s2) t + 1
              = count_occ Target.eq_dec (targets s1) t)%nat).
Proof.
  destruct (refresh_and_scan_failure depth (refreshed s) s1) as [Hill _].
  destruct (Hill Hfail) as (t & Ht & Hrej).
  exists t. split; [ exact Ht | ]. split; [ exact Hrej | ].
  intros Hin. rewrite iteration_eq. unfold try_except. rewrite Hfail.
  cbn [handlers]. unfold bind at 1. unfold read. rewrite Ht.
  unfold bind at 1. rewrite lift_run. cbn [fst snd logger emit].
  rewrite targets_remove_in by exact Hin.
  eexists. split; [ reflexivity | ].
  cbn [targets outside with_outside]. split; [ reflexivity | ].
  split; [ reflexivity | ].
  split.
  - intros u Hu.
    pose proof (count_occ_remove_first t u (targets s1) Hin) as Hc.
    destruct (Target.eq_dec t u); [ congruence | lia ].
  - pose proof (count_occ_remove_first t t (targets s1) Hin) as Hc.
    destruct (Target.eq_dec t t); [ lia | congruence ].
Qed.

Lemma rejected_target_is_dropped_and_iteration_ends_witness :
  let s := logged_in
             ([directory [algebra_row "50/49"; biology_row "50/49"]]
              ++ captcha_rounds 0 ++ [refused])
             [algebra; biology] in
  In algebra (targets (snd (refresh_and_scan 3 (refreshed s))))
  /\ targets (snd (iteration 3 s)) = [biology].
Proof.
  intros s.
  assert (Hfail : refresh_and_scan 3 (refreshed s)
                  = (Raise IllegalOperationError,
                     snd (refresh_and_scan 3 (refreshed s)))).
  { vm_compute. reflexivity. }
  assert (Hin : In algebra (targets (snd (refresh_and_scan 3 (refreshed s))))).
  { left. vm_compute. reflexivity. }
  split; [ exact Hin | ].
  destruct (rejected_target_is_dropped_and_iteration_ends (E := scripted)
              3 s _ Hfail) as (t & Ht & _ & H).
  assert (Heq : t = algebra).
  { assert (Hc : target (snd (refresh_and_scan 3 (refreshed s))) = Some algebra)
      by (vm_compute; reflexivity).
    congruence. }
  subst t. destruct (H Hin) as (s2 & Hit & Hts & _).
  rewrite Hit. cbn [snd]. rewrite Hts. vm_compute. reflexivity.
Defined.

(** C5 (as stated, refuted). Two targets are pending and the directory
    lists an electable course for each.  The election of the first is
    rejected: the handler removes it and the iteration ends; the second
    target is neither bound nor attempted in that iteration. *)
Lemma rest_of_iteration_is_not_processed :
  let s := logged_in
             ([directory [algebra_row "50/49"; biology_row "50/49"]]
              ++ captcha_rounds 0 ++ [refused])
             [algebra; biology] in
  let s2 := snd (iteration 3 s) in
  fst (iteration 3 s) = Ok tt
  /\ events s2
     = [ Sleep 10; Removed algebra; Log WARNING (Msg_ignoring "Algebra");
         Log INFO (Msg_failed_elect "Algebra" "conflict");
         Log DEBUG Msg_attempt_captcha;
         Log INFO (Msg_attempt_elect "Algebra");
         discovered algebra_course; For_target algebra;
         Log DEBUG Msg_attempt_courses; Log DEBUG Msg_refreshing ]
  /\ targets s2 = [biology]
  /\ search_result [algebra_course; biology_course] biology = Ok [biology_course]
  /\ electable biology_course = true
  /\ bound_in biology (events s2) = false
  /\ attempts_of "Biology" (events s2) = 0%nat.
Proof.
  cbv zeta. repeat split; vm_compute; reflexivity.
Qed.

(** * Recovery from an expired session *)

(** C4. When the fetch of the directory or an election attempt ends with
    [SessionExpiredError], nothing has been removed since that stage
    started (only log records were written), the handler leaves the
    working list as it is and marks the session as expired; after the
    sleep, if targets are left, the next thing the loop does is a login
    attempt, before the directory is fetched again.  When the failing
    stage is the fetch, the list is the one the iteration started with. *)
Theorem expired_session_keeps_targets
  {E : Environment}
  (username password : string) (depth n : nat) (s s1 : machine)
  (Hfail : refresh_and_scan depth (refreshed s)
           = (Raise SessionExpiredError, s1)) :
  since_stage_start (events s1)
  /\ (forall session,
        sess s = Some session ->
        fst (get_courses session (outside (refreshed s)))
        = Raise SessionExpiredError ->
        targets s1 = targets s)
  /\ exists s2,
       iteration depth s = (Ok tt, s2)
       /\ targets s2 = targets s1
       /\ session_expired s2 = true
       /\ events s2
          = Sleep 10 :: Log WARNING Msg_session_expired :: events s1
       /\ (targets s2 <> [] ->
           main_loop username password depth (S n) s2
           = ((login_attempt username password ;;
               login_loop username password n) ;;
              iteration depth ;;
              main_loop username password depth n) s2).
Proof.
  destruct (refresh_and_scan_failure depth (refreshed s) s1) as [_ Hexp].
  split; [ exact (Hexp Hfail) | ].
  split.
  { intros session Hsess Hget. rewrite refresh_and_scan_eq in Hfail.
    change (sess (refreshed s)) with (sess s) in Hfail. rewrite Hsess in Hfail.
    destruct (get_courses session (outside (refreshed s))) as [rc o].
    simpl in Hget. subst rc. injection Hfail as <-. reflexivity. }
  rewrite iteration_eq. unfold try_except. rewrite Hfail.
  cbn [handlers]. unfold bind at 1. rewrite lift_run.
  cbn [fst snd logger emit]. unfold set_session_expired.
  eexists. split; [ reflexivity | ].
  cbn [targets outside with_outside session_expired].
  split; [ reflexivity | ]. split; [ reflexivity | ].
  split; [ reflexivity | ].
  intros Hne. cbn [main_loop targets].
  destruct (targets s1) as [ | t0 ts0 ]; [ congruence | ].
  unfold bind at 1. unfold bind at 3. cbn [login_loop session_expired].
  reflexivity.
Qed.

Lemma expired_session_keeps_targets_witness :
  let s := logged_in
             ([directory [algebra_row "50/49"]]
              ++ captcha_rounds 0 ++ [no_message])
             [algebra] in
  targets (snd (iteration 3 s)) = [algebra]
  /\ session_expired (snd (iteration 3 s)) = true.
Proof.
  intros s.
  assert (Hfail : refresh_and_scan 3 (refreshed s)
                  = (Raise SessionExpiredError,
                     snd (refresh_and_scan 3 (refreshed s)))).
  { vm_compute. reflexivity. }
  destruct (expired_session_keeps_targets (E := scripted)
              "1900012345" "secret" 3 1 s _ Hfail)
    as (_ & _ & s2 & Hit & Hts & Hse & _).
  rewrite Hit. cbn [snd]. rewrite Hts, Hse.
  split; [ vm_compute; reflexivity | reflexivity ].
Defined.

(** * Removing from the list that is being scanned *)

Lemma remove_first_not_in (x : Target.t) (l : list Target.t) :
  ~ In x l -> remove_first x l = l.
Proof.
  induction l as [ | a l IH]; simpl; intros Hx; [ reflexivity | ].
  destruct (Target.eq_dec a x) as [-> | Hne]; [ tauto | ].
  f_equal. apply IH. tauto.
Qed.

Lemma remove_first_incl (x y : Target.t) (l : list Target.t) :
  In y (remove_first x l) -> In y l.
Proof.
  induction l as [ | a l IH]; simpl; [ auto | ].
  destruct (Target.eq_dec a x); simpl; tauto.
Qed.

Lemma remove_first_other (x y : Target.t) (l : list Target.t) :
  In y l -> y <> x -> In y (remove_first x l).
Proof.
  induction l as [ | a l IH]; simpl; [ auto | ].
  intros Hin Hne. destruct (Target.eq_dec a x) as [Hax | Hax]; simpl.
  - destruct Hin as [Hay | Hin]; [ congruence | exact Hin ].
  - destruct Hin as [Hay | Hin]; [ left; exact Hay | right; auto ].
Qed.

Lemma remove_first_NoDup (x : Target.t) (l : list Target.t) :
  NoDup l -> NoDup (remove_first x l).
Proof.
  induction 1 as [ | a l Ha Hl IH]; simpl; [ constructor | ].
  destruct (Target.eq_dec a x); [ exact Hl | ].
  constructor; [ | exact IH ].
  intros Hin. apply Ha. exact (remove_first_incl _ _ _ Hin).
Qed.

Lemma remove_first_gone (x : Target.t) (l : list Target.t) :
  NoDup l -> ~ In x (remove_first x l).
Proof.
  induction 1 as [ | a l Ha Hl IH]; simpl; [ auto | ].
  destruct (Target.eq_dec a x) as [-> | Hne]; [ exact Ha | ].
  simpl. tauto.
Qed.

Lemma In_skipn_S {A : Type} (j : nat) (l : list A) (y : A) :
  In y (skipn (S j) l) -> In y (skipn j l).
Proof.
  revert j. induction l as [ | a l IH]; intros j; [ destruct j; auto | ].
  destruct j as [ | j]; simpl; [ auto | ].
  intros H. apply IH. exact H.
Qed.

Lemma skipn_remove_first (x y : Target.t) (l : list Target.t) (j : nat) :
  In y (skipn j (remove_first x l)) -> In y (skipn j l).
Proof.
  revert j. induction l as [ | a l IH]; intros j; simpl; [ auto | ].
  destruct (Target.eq_dec a x) as [-> | Hne].
  - destruct j as [ | j]; simpl; [ auto | ]. apply In_skipn_S.
  - destruct j as [ | j]; simpl.
    + intros [-> | H]; [ auto | right; exact (remove_first_incl _ _ _ H) ].
    + apply IH.
Qed.

Lemma firstn_remove_first (x : Target.t) (l : list Target.t) (k : nat) :
  ~ In x (firstn k l) -> firstn k (remove_first x l) = firstn k l.
Proof.
  revert k. induction l as [ | a l IH]; intros k; simpl.
  - reflexivity.
  - destruct k as [ | k]; simpl.
    + destruct (Target.eq_dec a x); reflexivity.
    + intros Hx. destruct (Target.eq_dec a x) as [-> | Hne]; [ tauto | ].
      simpl. f_equal. apply IH. tauto.
Qed.

Lemma NoDup_prefix_free (l : list Target.t) (k : nat) (t : Target.t) :
  NoDup l -> nth_error l k = Some t -> ~ In t (firstn k l).
Proof.
  intros Hnd. revert k. induction Hnd as [ | a l Ha Hl IH]; intros k.
  - destruct k; discriminate.
  - destruct k as [ | k]; simpl; [ auto | ].
    intros Hk [-> | Hin].
    + apply Ha. exact (nth_error_In _ _ Hk).
    + exact (IH _ Hk Hin).
Qed.

Lemma NoDup_suffix_free (l : list Target.t) (k : nat) (u : Target.t) :
  NoDup l -> nth_error l k = Some u -> ~ In u (skipn (S k) l).
Proof.
  intros Hnd. revert k. induction Hnd as [ | a l Ha Hl IH]; intros k.
  - destruct k; discriminate.
  - destruct k as [ | k]; simpl.
    + intros H. injection H as ->. exact Ha.
    + intros Hk. exact (IH _ Hk).
Qed.

Lemma nth_error_remove_first_next
  (l : list Target.t) (i : nat) (t u : Target.t) :
  NoDup l -> nth_error l i = Some t -> nth_error l (S i) = Some u ->
  nth_error (remove_first t l) i = Some u.
Proof.
  intros Hnd. revert i. induction Hnd as [ | a l Ha Hl IH]; intros i.
  - destruct i; discriminate.
  - destruct i as [ | i]; simpl.
    + intros H. injection H as ->.
      destruct (Target.eq_dec t t); [ auto | congruence ].
    + intros Ht Hu. destruct (Target.eq_dec a t) as [-> | Hne].
      * exfalso. apply Ha. exact (nth_error_In _ _ Ht).
      * simpl. exact (IH _ Ht Hu).
Qed.

Lemma In_skipn_nth (l : list Target.t) (k : nat) (t : Target.t) :
  nth_error l k = Some t -> In t (skipn k l).
Proof.
  revert k. induction l as [ | a l IH]; intros k.
  - destruct k; discriminate.
  - destruct k as [ | k]; simpl.
    + intros H. injection H as ->. left. reflexivity.
    + apply IH.
Qed.

Lemma firstn_pred {A : Type} (k : nat) (a b : list A) :
  firstn (S k) a = firstn (S k) b -> firstn k a = firstn k b.
Proof.
  intros H.
  rewrite <- (Nat.min_l k (S k)) by lia.
  rewrite <- !firstn_firstn. rewrite H. reflexivity.
Qed.

Lemma In_firstn_le {A : Type} (j k : nat) (l : list A) (x : A) :
  (j <= k)%nat -> In x (firstn j l) -> In x (firstn k l).
Proof.
  revert j k. induction l as [ | a l IH]; intros j k Hjk.
  - destruct j, k; simpl; auto.
  - destruct j as [ | j]; simpl; [ intros [] | ].
    destruct k as [ | k]; [ lia | ]. simpl.
    intros [Hx | Hx]; [ left; exact Hx | right ].
    apply (IH j k); [ lia | exact Hx ].
Qed.

Section Skipping.

Context {E : Environment}.

Variable depth : nat.
Variable session : Session.
Variable courses : list Course.t.

(** With distinct targets, the visit of [t] leaves the list as it is or
    removes [t]. *)
Lemma for_course_targets
  (found : list Course.t) (t : Target.t) (s s' : machine) (r : result unit) :
  NoDup (targets s) ->
  for_course depth session found t s = (r, s') ->
  targets s' = targets s \/ targets s' = remove_first t (targets s).
Proof.
  revert s. induction found as [ | course rest IH]; intros s Hnd.
  - simpl. intros H. injection H as <- <-. left. reflexivity.
  - destruct (electable course) eqn:Hel.
    + rewrite for_course_electable by exact Hel.
      destruct (elect depth session course _) as [[[] | e | ] o];
        try (intros H; injection H as <- <-; left; reflexivity).
      destruct (in_dec Target.eq_dec t (targets s));
        [ | intros H; injection H as <- <-; left; reflexivity ].
      intros H. right.
      destruct (IH (without t (with_outside s o))
                  (remove_first_NoDup t _ Hnd) H) as [Heq | Heq];
        rewrite Heq; cbn [targets without with_outside]; [ reflexivity | ].
      apply remove_first_not_in, remove_first_gone. exact Hnd.
    + rewrite for_course_full by exact Hel. apply IH. exact Hnd.
Qed.

Lemma for_target_body_targets
  (t : Target.t) (s s' : machine) (r : result unit) :
  NoDup (targets s) ->
  for_target_body depth session courses t s = (r, s') ->
  targets s' = targets s \/ targets s' = remove_first t (targets s).
Proof.
  intros Hnd. rewrite for_target_body_eq.
  destruct (search_result courses t) as [[ | course found] | e | ].
  - cbv zeta. destruct (in_dec Target.eq_dec t (targets s));
      intros H; injection H as <- <-; [ right | left ]; reflexivity.
  - apply for_course_targets. exact Hnd.
  - intros H; injection H as <- <-; left; reflexivity.
  - intros H; injection H as <- <-; left; reflexivity.
Qed.

(** With distinct targets, a scan from position [k] binds only targets
    that stand at position [k] or later, leaves the targets before [k] in
    place, and ends with the loop variable on the last target it bound. *)
Lemma for_target_bindings (n k : nat) (s s' : machine) (r : result unit) :
  NoDup (targets s) ->
  for_target depth session courses n k s = (r, s') ->
  exists later,
    events s' = later ++ events s
    /\ (forall y, In (For_target y) later -> In y (skipn k (targets s)))
    /\ firstn k (targets s') = firstn k (targets s)
    /\ NoDup (targets s')
    /\ (target s' = target s
        \/ exists y, target s' = Some y /\ In (For_target y) later).
Proof.
  revert k s. induction n as [ | n IH]; intros k s Hnd.
  - simpl. intros H. injection H as <- <-. exists [].
    conj; auto. intros y Hy. destruct Hy.
  - rewrite for_target_eq.
    destruct (nth_error (targets s) k) as [t | ] eqn:Hk.
    + destruct (for_target_body depth session courses t (visiting t s))
        as [rb s1] eqn:Hbody.
      destruct (for_target_body_trace _ _ _ _ _ _ _ Hbody)
        as (new & E1 & S1 & T1 & _).
      change (events (visiting t s)) with (For_target t :: events s) in E1.
      change (target (visiting t s)) with (Some t) in T1.
      pose proof (for_target_body_targets t (visiting t s) s1 rb Hnd Hbody)
        as Hts.
      change (targets (visiting t s)) with (targets s) in Hts.
      assert (Hnd1 : NoDup (targets s1)).
      { destruct Hts as [-> | ->];
          [ exact Hnd | apply remove_first_NoDup; exact Hnd ]. }
      assert (Hpre : forall j, (j <= k)%nat ->
                 firstn j (targets s1) = firstn j (targets s)).
      { intros j Hj. destruct Hts as [-> | ->]; [ reflexivity | ].
        apply firstn_remove_first. intros Hin.
        apply (NoDup_prefix_free _ _ _ Hnd Hk).
        exact (In_firstn_le j k _ _ Hj Hin). }
      assert (Hsuf : forall y, In y (skipn (S k) (targets s1)) ->
                 In y (skipn k (targets s))).
      { intros y Hy. apply In_skipn_S.
        destruct Hts as [Heq | Heq]; rewrite Heq in Hy;
          [ exact Hy | exact (skipn_remove_first _ _ _ _ Hy) ]. }
      assert (Hmine : forall y, In (For_target y) (new ++ [For_target t]) ->
                 In y (skipn k (targets s))).
      { intros y Hy. apply in_app_or in Hy. destruct Hy as [Hy | [Hy | []]].
        - exfalso. rewrite Forall_forall in S1. exact (S1 _ Hy).
        - injection Hy as <-. exact (In_skipn_nth _ _ _ Hk). }
      assert (Hstop : forall r0 : result unit,
                 (r0, s1) = (r, s') ->
                 exists later,
                   events s' = later ++ events s
                   /\ (forall y, In (For_target y) later ->
                         In y (skipn k (targets s)))
                   /\ firstn k (targets s') = firstn k (targets s)
                   /\ NoDup (targets s')
                   /\ (target s' = target s
                       \/ exists y, target s' = Some y
                                    /\ In (For_target y) later)).
      { intros r0 H. injection H as <- <-. exists (new ++ [For_target t]).
        conj.
        - rewrite E1, <- app_assoc. reflexivity.
        - exact Hmine.
        - apply Hpre. lia.
        - exact Hnd1.
        - right. exists t. split; [ exact T1 | ].
          apply in_or_app. right. left. reflexivity. }
      destruct rb as [[] | e | ]; try apply Hstop.
      intros H.
      destruct (IH _ _ Hnd1 H) as (later & E2 & B2 & P2 & N2 & T2).
      exists (later ++ new ++ [For_target t]). conj.
      * rewrite E2, E1, <- !app_assoc. reflexivity.
      * intros y Hy. apply in_app_or in Hy. destruct Hy as [Hy | Hy].
        -- apply Hsuf, B2. exact Hy.
        -- apply Hmine. exact Hy.
      * rewrite (firstn_pred _ _ _ P2). apply Hpre. lia.
      * exact N2.
      * right. destruct T2 as [T2 | (y & T2 & Hy)].
        -- exists t. split; [ rewrite T2; exact T1 | ].
           apply in_or_app. right. apply in_or_app. right.
           left. reflexivity.
        -- exists y. split; [ exact T2 | ].
           apply in_or_app. left. exact Hy.
    + intros H. injection H as <- <-. exists [].
      conj; auto. intros y Hy. destruct Hy.
Qed.

End Skipping.

(** The two ways the visit of a target returns with the target removed. *)
Lemma not_found_is_removed {E : Environment}
  (depth : nat) (session : Session) (courses : list Course.t)
  (t : Target.t) (s : machine) :
  search_result courses t = Ok [] ->
  In t (targets s) ->
  exists s1,
    for_target_body depth session courses t s = (Ok tt, s1)
    /\ targets s1 = remove_first t (targets s)
    /\ events s1
       = Removed t :: Log WARNING (Msg_not_found (Target.courseName t))
         :: events s.
Proof.
  intros Hsearch Hin. rewrite for_target_body_eq, Hsearch. cbv zeta.
  destruct (in_dec Target.eq_dec t (targets s)); [ | contradiction ].
  eexists. split; [ reflexivity | ]. split; reflexivity.
Qed.

Lemma elected_is_removed {E : Environment}
  (depth : nat) (session : Session) (courses : list Course.t)
  (course : Course.t) (t : Target.t) (s : machine) (o : io) :
  search_result courses t = Ok [course] ->
  electable course = true ->
  elect depth session course (log_to (discovered course) (outside s))
  = (Ok tt, o) ->
  In t (targets s) ->
  for_target_body depth session courses t s
  = (Ok tt, without t (with_outside s o))
  /\ targets (without t (with_outside s o)) = remove_first t (targets s).
Proof.
  intros Hsearch Hel Helect Hin. rewrite for_target_body_eq, Hsearch.
  rewrite for_course_electable by exact Hel. rewrite Helect.
  destruct (in_dec Target.eq_dec t (targets s)); [ | contradiction ].
  split; reflexivity.
Qed.

(** C10. The targets being distinct: when the visit of the target at
    position [i] returns with that target removed (it was not found, or it
    was elected), the target [u] that stood right after it slides into
    position [i], which the iterator has passed: [u] is not bound in the
    rest of the scan, it is still at position [i] of the working list when
    the scan ends, and it is still in the list after whichever handler
    ends the iteration, to be examined by a later iteration. *)
Theorem removal_skips_the_next_target
  {E : Environment}
  (depth : nat) (session : Session) (courses : list Course.t)
  (n i : nat) (t u : Target.t) (s s1 s' : machine) (r : result unit)
  (Hnd : NoDup (targets s))
  (Ht : nth_error (targets s) i = Some t)
  (Hu : nth_error (targets s) (S i) = Some u)
  (Hbody : for_target_body depth session courses t (visiting t s)
           = (Ok tt, s1))
  (Hremoved : targets s1 = remove_first t (targets s))
  (Hscan : for_target depth session courses (S n) i s = (r, s')) :
  exists mine later,
    events s1 = mine ++ For_target t :: events s
    /\ events s' = later ++ events s1
    /\ ~ In (For_target u) (later ++ mine)
    /\ nth_error (targets s1) i = Some u
    /\ nth_error (targets s') i = Some u
    /\ (forall e k r2 s2,
          r = Raise e -> handlers e = Some k -> k s' = (r2, s2) ->
          In u (targets s2)
          /\ exists extra,
               events s2 = extra ++ events s' /\ Forall settled extra).
Proof.
  rewrite for_target_eq, Ht, Hbody in Hscan.
  destruct (for_target_body_trace _ _ _ _ _ _ _ Hbody)
    as (mine & E1 & S1 & T1 & _).
  change (events (visiting t s)) with (For_target t :: events s) in E1.
  change (target (visiting t s)) with (Some t) in T1.
  assert (Hnd1 : NoDup (targets s1)).
  { rewrite Hremoved. apply remove_first_NoDup. exact Hnd. }
  assert (Hu1 : nth_error (targets s1) i = Some u).
  { rewrite Hremoved. exact (nth_error_remove_first_next _ _ _ _ Hnd Ht Hu). }
  destruct (for_target_bindings _ _ _ _ _ _ _ _ Hnd1 Hscan)
    as (later & E2 & B2 & P2 & N2 & T2).
  assert (Hfree : ~ In u (skipn (S i) (targets s1))).
  { exact (NoDup_suffix_free _ _ _ Hnd1 Hu1). }
  assert (Htu : t <> u).
  { intros ->. apply (NoDup_suffix_free _ _ _ Hnd Ht).
    exact (In_skipn_nth _ _ _ Hu). }
  assert (Hu' : nth_error (targets s') i = Some u).
  { assert (H : nth_error (firstn (S i) (targets s')) i
                = nth_error (firstn (S i) (targets s1)) i)
      by (rewrite P2; reflexivity).
    rewrite !nth_error_firstn in H.
    replace (Nat.ltb i (S i)) with true in H
      by (symmetry; apply Nat.ltb_lt; lia).
    rewrite H. exact Hu1. }
  assert (Hvar : exists y, target s' = Some y /\ y <> u).
  { destruct T2 as [T2 | (y & T2 & Hy)].
    - exists t. split; [ rewrite T2; exact T1 | exact Htu ].
    - exists y. split; [ exact T2 | ].
      intros ->. exact (Hfree (B2 _ Hy)). }
  exists mine, later. conj; try assumption.
  - intros Hin. apply in_app_or in Hin. destruct Hin as [Hin | Hin].
    + exact (Hfree (B2 _ Hin)).
    + rewrite Forall_forall in S1. exact (S1 _ Hin).
  - intros e k r2 s2 _ Hh Hk.
    pose proof (nth_error_In _ _ Hu') as Hin.
    destruct e; simpl in Hh; try discriminate; injection Hh as <-.
    + rewrite lift_run in Hk. injection Hk as <- <-.
      split; [ exact Hin | ].
      exists [Log WARNING Msg_network].
      split; [ reflexivity | repeat constructor ].
    + unfold bind in Hk. rewrite lift_run in Hk.
      cbn [fst snd logger emit] in Hk. unfold set_session_expired in Hk.
      injection Hk as <- <-. split; [ exact Hin | ].
      exists [Log WARNING Msg_session_expired].
      split; [ reflexivity | repeat constructor ].
    + destruct Hvar as (y & Hy & Hyu).
      unfold bind at 1 in Hk. unfold read in Hk. rewrite Hy in Hk.
      unfold bind at 1 in Hk. rewrite lift_run in Hk.
      cbn [fst snd logger emit] in Hk. unfold targets_remove in Hk.
      cbn [targets] in Hk.
      destruct (in_dec Target.eq_dec y (targets s')) as [Hyin | Hyin];
        injection Hk as <- <-.
      * split.
        -- cbn [targets]. apply remove_first_other; [ exact Hin | congruence ].
        -- exists [Removed y; Log WARNING (Msg_ignoring (Target.courseName y))].
           split; [ reflexivity | repeat constructor ].
      * split; [ exact Hin | ].
        exists [Log WARNING (Msg_ignoring (Target.courseName y))].
        split; [ reflexivity | repeat constructor ].
Qed.

Lemma removal_skips_the_next_target_witness :
  let s := logged_in (captcha_rounds 0 ++ [elected])
             [algebra; biology; chemistry] in
  let dir := [biology_course; chemistry_course] in
  nth_error (targets (snd (for_target 3 a_session dir 4 0 s))) 0
  = Some biology
  /\ bound_in biology (events (snd (for_target 3 a_session dir 4 0 s)))
     = false
  /\ bound_in chemistry (events (snd (for_target 3 a_session dir 4 0 s)))
     = true.
Proof.
  intros s dir.
  assert (Hnd : NoDup (targets s)).
  { repeat constructor; simpl; intuition discriminate. }
  destruct (removal_skips_the_next_target (E := scripted)
              3 a_session dir 3 0 algebra biology s
              (snd (for_target_body 3 a_session dir algebra (visiting algebra s)))
              (snd (for_target 3 a_session dir 4 0 s))
              (fst (for_target 3 a_session dir 4 0 s))
              Hnd eq_refl eq_refl)
    as (mine & later & _ & _ & _ & _ & H & _).
  - vm_compute. reflexivity.
  - vm_compute. reflexivity.
  - apply surjective_pairing.
  - split; [ exact H | ]. split; vm_compute; reflexivity.
Defined.

(** A run in which the skipped target is reached by the next iteration:
    the first target is not found and removed, the second is skipped, the
    third is elected; the second iteration then binds and elects the
    second. *)
Lemma skipped_target_waits_for_next_iteration :
  let first := [directory [biology_row "50/49"; chemistry_row "50/49"]]
               ++ captcha_rounds 0 ++ [elected] in
  let second := [directory [biology_row "50/49"]]
                ++ captcha_rounds 0 ++ [elected] in
  let rows := [algebra; biology; chemistry] in
  targets (snd (iteration 3 (logged_in first rows))) = [biology]
  /\ bound_in biology (events (snd (iteration 3 (logged_in first rows))))
     = false
  /\ ending (main (E := scripted) "1900012345" "secret" 3 3
               (login_ok ++ first ++ second) rows)
     = (Ok tt, [], Some (Log INFO Msg_no_more_targets))
  /\ bound_in biology
       (events (snd (main (E := scripted) "1900012345" "secret" 3 3
                       (login_ok ++ first ++ second) rows)))
     = true.
Proof.
  cbv zeta. repeat split; vm_compute; reflexivity.
Qed.

(** * The bound on the steps of the scan *)

Lemma remove_first_length (x : Target.t) (l : list Target.t) :
  (List.length (remove_first x l) <= List.length l)%nat.
Proof.
  induction l as [ | a l IH]; simpl; [ lia | ].
  destruct (Target.eq_dec a x); simpl; lia.
Qed.

Section Scan_bound.

Context {E : Environment}.

Variable depth : nat.
Variable session : Session.
Variable courses : list Course.t.

Lemma for_course_length
  (found : list Course.t) (t : Target.t) (s s' : machine) (r : result unit) :
  for_course depth session found t s = (r, s') ->
  (List.length (targets s') <= List.length (targets s))%nat.
Proof.
  revert s. induction found as [ | course rest IH]; intros s.
  - simpl. intros H. injection H as <- <-. lia.
  - destruct (electable course) eqn:Hel.
    + rewrite for_course_electable by exact Hel.
      destruct (elect depth session course _) as [[[] | e | ] o];
        try (intros H; injection H as <- <-; simpl; lia).
      destruct (in_dec Target.eq_dec t (targets s));
        [ | intros H; injection H as <- <-; simpl; lia ].
      intros H. apply IH in H. cbn [targets without with_outside] in H.
      pose proof (remove_first_length t (targets s)). lia.
    + rewrite for_course_full by exact Hel. apply IH.
Qed.

Lemma for_target_body_length
  (t : Target.t) (s s' : machine) (r : result unit) :
  for_target_body depth session courses t s = (r, s') ->
  (List.length (targets s') <= List.length (targets s))%nat.
Proof.
  rewrite for_target_body_eq.
  destruct (search_result courses t) as [[ | course found] | e | ].
  - cbv zeta. destruct (in_dec Target.eq_dec t (targets s));
      intros H; injection H as <- <-; simpl;
      [ apply remove_first_length | lia ].
  - apply for_course_length.
  - intros H; injection H as <- <-; lia.
  - intros H; injection H as <- <-; lia.
Qed.

(** Once the bound exceeds the number of targets left to scan, the scan
    does not depend on it: the bound [S (length targets)] that [main] uses
    is never the reason for [OutOfFuel]. *)
Lemma for_target_bound (n m i : nat) (s : machine) :
  (List.length (targets s) - i < n)%nat ->
  (List.length (targets s) - i < m)%nat ->
  for_target depth session courses n i s
  = for_target depth session courses m i s.
Proof.
  revert m i s. induction n as [ | n IH]; intros m i s Hn Hm; [ lia | ].
  destruct m as [ | m]; [ lia | ].
  rewrite !for_target_eq.
  destruct (nth_error (targets s) i) as [t | ] eqn:Hi; [ | reflexivity ].
  assert (Hlt : (i < List.length (targets s))%nat).
  { apply nth_error_Some. congruence. }
  destruct (for_target_body depth session courses t (visiting t s))
    as [[[] | e | ] s1] eqn:Hbody; try reflexivity.
  apply for_target_body_length in Hbody.
  change (targets (visiting t s)) with (targets s) in Hbody.
  apply IH; lia.
Qed.

End Scan_bound.

(** * What the portal functions can raise *)

Section Raised.

Context {E : Environment}.

Lemma http_raises (q : request) (s s' : io) (e : exn) :
  http q s = (Raise e, s') -> e = RequestException.
Proof.
  unfold http. destruct (send q (world s)) as [[ | resp] w];
    intros H; inversion H; reflexivity.
Qed.

(** [solve_captcha] raises [SessionExpiredError] or lets one of three
    other errors through. *)
Lemma solve_captcha_raises
  (depth : nat) (session : Session) (s s' : io) (e : exn) :
  solve_captcha depth session s = (Raise e, s') ->
  e = SessionExpiredError \/ e = RequestException
  \/ e = KeyError \/ e = TypeError.
Proof.
  revert s s' e. induction depth as [ | depth IH]; intros s s' e; simpl.
  - unfold of_result. discriminate.
  - unfold bind at 1. unfold logger, emit. unfold bind at 1.
    destruct (http (captcha_request session) _) as [[img | e1 | ] s1] eqn:H1.
    + unfold bind at 1.
      destruct (http (submit_request session _) s1)
        as [[resp | e2 | ] s2] eqn:H2.
      * unfold try_except, bind, of_result.
        destruct (doc <-? resp_json resp;; subscript doc "valid")
          as [valid | e3 | ] eqn:Hv.
        -- destruct (differs_from_str valid "2").
           ++ destruct (solve_captcha depth session s2)
                as [[[] | e4 | ] s3] eqn:H3; try discriminate.
              destruct (IH _ _ _ H3) as [-> | [-> | [-> | ->]]]; simpl;
                intros H; injection H as <- _; auto.
           ++ unfold ret. discriminate.
        -- unfold resp_json, subscript in Hv.
           destruct (json_body resp) as [[ | | | | | fs] | ]; simpl in Hv;
             try (injection Hv as <-; simpl; unfold raise;
                  intros H; injection H as <- _; auto).
           destruct (assoc "valid" fs); [ discriminate | ].
           injection Hv as <-. simpl. intros H; injection H as <- _; auto.
        -- discriminate.
      * intros H. injection H as <- _. rewrite (http_raises _ _ _ _ H2). auto.
      * discriminate.
    + intros H. injection H as <- _. rewrite (http_raises _ _ _ _ H1). auto.
    + discriminate.
Qed.

(** [get_elective_session] raises [NetworkError] or
    [AuthenticationError], or lets [ValueError] or [TypeError] through. *)
Lemma get_elective_session_raises
  (username password : string) (s s' : io) (e : exn) :
  get_elective_session username password s = (Raise e, s') ->
  e = NetworkError \/ e = AuthenticationError
  \/ e = ValueError \/ e = TypeError.
Proof.
  unfold get_elective_session. unfold bind at 1. unfold logger at 1, emit.
  unfold bind at 1. unfold get_iaaa_token.
  unfold bind at 1. unfold logger at 1, emit.
  unfold bind at 1. unfold try_except at 1. unfold http at 1.
  destruct (send _ _) as [[ | r] w]; simpl.
  - unfold raise. intros H. injection H as <- _. auto.
  - unfold bind at 1. unfold try_except at 1. unfold of_result, resp_json.
    destruct (json_body r) as [doc | ]; simpl.
    + unfold subscript.
      destruct doc as [ | | | | | fs ]; simpl;
        try (intros H; injection H as <- _; auto).
      destruct (assoc "token" fs) as [token | ]; simpl.
      * unfold bind at 1. unfold logger at 1, emit. unfold ret at 1.
        unfold try_except, bind. unfold http.
        destruct (send _ _) as [[ | resp] w2]; simpl.
        -- unfold raise. intros H. injection H as <- _. auto.
        -- destruct (status_code resp =? 200); simpl.
           ++ unfold logger, emit, ret. discriminate.
           ++ unfold raise. intros H. injection H as <- _. auto.
      * unfold raise. intros H. injection H as <- _. auto.
    + intros H. injection H as <- _. auto.
Qed.

End Raised.

(** * Further properties: the directory fetch *)

Section Directory.

Context {E : Environment}.



(** [get_courses], one request and one parse spelled out. *)
Lemma get_courses_eq (session : Session) (s : io) :
  get_courses session s
  = let announced := Log DEBUG Msg_attempt_courses :: trace s in
    match send (courses_request session) (world s) with
    | (Unreachable, w) =>
        (Raise NetworkError,
         {| world := w; trace := Log DEBUG Msg_network_courses :: announced |})
    | (Answer resp, w) =>
        match read_table resp with
        | Ok courses => (Ok courses, {| world := w; trace := announced |})
        | Raise ValueError | Raise AttributeError =>
            (Raise SessionExpiredError,
             {| world := w; trace := Log INFO Msg_parse_failed :: announced |})
        | Raise e => (Raise e, {| world := w; trace := announced |})
        | OutOfFuel => (OutOfFuel, {| world := w; trace := announced |})
        end
    end.
Proof.
  unfold get_courses. unfold bind at 1. unfold logger at 1, emit.
  unfold bind at 1. unfold try_except at 1. unfold http.
  change {| meth := GET; url := url_supply_cancel;
            headers := session_headers session;
            fields := []; timeout := Some 5 |}
    with (courses_request session).
  cbn [world trace].
  destruct (send (courses_request session) (world s)) as [[ | resp] w].
  - reflexivity.
  - unfold try_except, of_result. fold (read_table resp).
    destruct (read_table resp) as [cs | e | ]; try reflexivity.
    destruct e; reflexivity.
Qed.

Lemma read_table_raises (resp : response) (e : exn) :
  read_table resp = Raise e ->
  e = AttributeError \/ e = IndexError \/ e = ValueError
  \/ e = TypeError \/ e = KeyError.
Proof.
  unfold read_table. destruct (datagrid (html resp)) as [rows | ]; simpl.
  - intros H. destruct (parse_items_raises _ _ H) as [-> | [-> | [-> | ->]]];
      auto.
  - intros H. injection H as <-. auto.
Qed.

End Directory.

(** X1. [get_courses] raises [NetworkError] exactly when the request for
    the course page fails in transport; it then has written the two debug
    records and nothing else happened. *)
Theorem get_courses_network_error
  {E : Environment} (session : Session) (s : io) :
  (fst (get_courses session s) = Raise NetworkError <->
   fst (send (courses_request session) (world s)) = Unreachable)
  /\ (forall w,
        send (courses_request session) (world s) = (Unreachable, w) ->
        get_courses session s
        = (Raise NetworkError,
           {| world := w;
              trace := Log DEBUG Msg_network_courses
                       :: Log DEBUG Msg_attempt_courses :: trace s |})).
Proof.
  rewrite get_courses_eq. cbv zeta.
  destruct (send (courses_request session) (world s)) as [[ | resp] w].
  - split.
    + split; reflexivity.
    + intros w' H. injection H as <-. reflexivity.
  - split; [ | intros w' H; discriminate ].
    split; [ | discriminate ].
    destruct (read_table resp) as [cs | e | ] eqn:Hr; try discriminate.
    destruct (read_table_raises _ _ Hr) as [-> | [-> | [-> | [-> | ->]]]];
      discriminate.
Qed.



(** X3. A first row with fewer than ten cells makes [get_courses] end with
    [IndexError]: the error is not turned into [SessionExpiredError], and
    no record of the failure is written. *)
Theorem short_row_escapes_as_index_error
  {E : Environment} (session : Session) (s : io)
  (resp : response) (w : World) (data : list td) (rows : list (list td))
  (Hsend : send (courses_request session) (world s) = (Answer resp, w))
  (Htable : datagrid (html resp) = Some (data :: rows))
  (Hshort : (List.length data < 10)%nat) :
  get_courses session s
  = (Raise IndexError,
     {| world := w; trace := Log DEBUG Msg_attempt_courses :: trace s |}).
Proof.
  rewrite get_courses_eq, Hsend. cbv zeta.
  assert (Hitem : parse_item data = Raise IndexError).
  { unfold parse_item, index.
    destruct (nth_error data 0); cbn [rbind]; [ | reflexivity ].
    destruct (nth_error data 5); cbn [rbind]; [ | reflexivity ].
    destruct (nth_error data 6); cbn [rbind]; [ | reflexivity ].
    destruct (nth_error data 9) eqn:H9; cbn [rbind]; [ | reflexivity ].
    assert (9 < List.length data)%nat by (apply nth_error_Some; congruence).
    lia. }
  unfold read_table. rewrite Htable. cbn [rbind parse_items].
  rewrite Hitem. reflexivity.
Qed.

Lemma short_row_escapes_as_index_error_witness :
  get_courses a_session (fresh [directory [[cell "Algebra"; cell "01"]]])
  = (Raise IndexError,
     @Build_io scripted [] [Log DEBUG Msg_attempt_courses]).
Proof.
  apply (short_row_escapes_as_index_error (E := scripted) a_session
           (fresh [directory [[cell "Algebra"; cell "01"]]])
           {| status_code := 200; content := ""; json_body := None;
              html := {| datagrid := Some [[cell "Algebra"; cell "01"]];
                         msgTips := None |} |}
           [] [cell "Algebra"; cell "01"] []).
  - reflexivity.
  - reflexivity.
  - simpl. lia.
Defined.



(** * Further properties: the capacity cell *)







(** * Further properties: the matcher *)



Lemma search_result_unnamed (courses : list Course.t) (target : Target.t) :
  (forall course, In course courses ->
     Course.name course <> Target.courseName target) ->
  search_result courses target = Ok [].
Proof.
  induction courses as [ | course rest IH]; simpl; intros Hnames;
    [ reflexivity | ].
  unfold matches.
  destruct (String.eqb_spec (Course.name course) (Target.courseName target))
    as [Hn | Hn]; [ exfalso; exact (Hnames course (or_introl eq_refl) Hn) | ].
  cbn [rbind]. rewrite IH; [ reflexivity | ].
  intros c Hc. apply Hnames. right. exact Hc.
Qed.

(** X7. A target whose course name no course of the directory carries is
    dropped at its first visit, with the warning that it was not found:
    its section identifier is never read, so it may be any text. *)
Theorem unnamed_target_is_dropped
  {E : Environment}
  (depth : nat) (session : Session) (courses : list Course.t)
  (t : Target.t) (s : machine)
  (Hnames : forall course, In course courses ->
              Course.name course <> Target.courseName t)
  (Hin : In t (targets s)) :
  for_target_body depth session courses t s
  = (Ok tt,
     without t
       (with_outside s
          (log_to (Log WARNING (Msg_not_found (Target.courseName t)))
             (outside s)))).
Proof.
  rewrite for_target_body_eq, (search_result_unnamed _ _ Hnames). cbv zeta.
  destruct (in_dec Target.eq_dec t (targets s)); [ reflexivity | contradiction ].
Qed.

Lemma unnamed_target_is_dropped_witness :
  let odd := Target.make "Geometry" "not a number" "Math" in
  targets (snd (for_target_body 3 a_session [algebra_course; biology_course]
                  odd (logged_in [] [algebra; odd])))
  = [algebra].
Proof.
  intros odd.
  rewrite (unnamed_target_is_dropped (E := scripted) 3 a_session
             [algebra_course; biology_course] odd (logged_in [] [algebra; odd])).
  - vm_compute. reflexivity.
  - intros course [<- | [<- | []]]; discriminate.
  - right. left. reflexivity.
Defined.







(** * Further properties: session acquisition *)

Section Acquisition.

Context {E : Environment}.

Lemma get_iaaa_token_eq (appid username password redir : string) (s : io) :
  get_iaaa_token appid username password redir s
  = let announced := Log DEBUG Msg_attempt_token :: trace s in
    match send (token_request appid username password redir) (world s) with
    | (Unreachable, w) =>
        (Raise NetworkError, {| world := w; trace := announced |})
    | (Answer r, w) =>
        match token_of r with
        | Ok token =>
            (Ok token,
             {| world := w; trace := Log DEBUG Msg_got_token :: announced |})
        | Raise KeyError =>
            (Raise AuthenticationError, {| world := w; trace := announced |})
        | Raise e => (Raise e, {| world := w; trace := announced |})
        | OutOfFuel => (OutOfFuel, {| world := w; trace := announced |})
        end
    end.
Proof.
  unfold get_iaaa_token. unfold bind at 1. unfold logger at 1, emit.
  unfold bind at 1. unfold try_except at 1. unfold http.
  fold (token_request appid username password redir). cbn [world trace].
  destruct (send (token_request appid username password redir) (world s))
    as [[ | r] w].
  - reflexivity.
  - unfold bind at 1. unfold try_except, of_result.
    replace (doc <-? resp_json r ;; subscript doc "token") with (token_of r)
      by (unfold token_of, resp_json; destruct (json_body r); reflexivity).
    destruct (token_of r) as [token | e | ]; try reflexivity.
    destruct e; reflexivity.
Qed.

Lemma get_elective_session_eq (username password : string) (s : io) :
  get_elective_session username password s
  = match get_iaaa_token "syllabus" username password
            "http://elective.pku.edu.cn/elective2008/agent4Iaaa.jsp/../ssoLogin.do"
            (log_to (Log DEBUG Msg_attempt_session) s) with
    | (Ok token, s1) =>
        match send (login_request token) (world s1) with
        | (Unreachable, w) =>
            (Raise NetworkError, {| world := w; trace := trace s1 |})
        | (Answer resp, w) =>
            if status_code resp =? 200
            then (Ok the_session,
                  {| world := w;
                     trace := Log DEBUG Msg_got_session_debug :: trace s1 |})
            else (Raise AuthenticationError,
                  {| world := w; trace := trace s1 |})
        end
    | (Raise e, s1) => (Raise e, s1)
    | (OutOfFuel, s1) => (OutOfFuel, s1)
    end.
Proof.
  unfold get_elective_session. unfold bind at 1. unfold logger at 1, emit.
  fold (log_to (Log DEBUG Msg_attempt_session) s). unfold bind at 1.
  destruct (get_iaaa_token _ _ _ _ _) as [[token | e | ] s1]; try reflexivity.
  unfold try_except, bind. unfold http. cbn [session_headers].
  fold (login_request token).
  destruct (send (login_request token) (world s1)) as [[ | resp] w];
    [ reflexivity | ].
  destruct (status_code resp =? 200); reflexivity.
Qed.

Lemma token_of_ok (r : response) (token : json) :
  token_of r = Ok token <->
  exists fs, json_body r = Some (JObj fs) /\ assoc "token" fs = Some token.
Proof.
  unfold token_of, subscript.
  destruct (json_body r) as [[ | b | z | str | items | fs] | ];
    try (split; [ discriminate | intros (fs' & H & _); discriminate ]).
  destruct (assoc "token" fs) as [v | ] eqn:Ha; split.
  - intros H. injection H as <-. exists fs. auto.
  - intros (fs' & H & Hv). injection H as <-. congruence.
  - discriminate.
  - intros (fs' & H & Hv). injection H as <-. congruence.
Qed.

Lemma token_of_key_error (r : response) :
  token_of r = Raise KeyError <->
  exists fs, json_body r = Some (JObj fs) /\ assoc "token" fs = None.
Proof.
  unfold token_of, subscript.
  destruct (json_body r) as [[ | b | z | str | items | fs] | ];
    try (split; [ discriminate | intros (fs' & H & _); discriminate ]).
  destruct (assoc "token" fs) as [v | ] eqn:Ha; split.
  - discriminate.
  - intros (fs' & H & Hv). injection H as <-. congruence.
  - intros _. exists fs. auto.
  - reflexivity.
Qed.

Lemma token_of_raises (r : response) (e : exn) :
  token_of r = Raise e -> e = ValueError \/ e = KeyError \/ e = TypeError.
Proof.
  unfold token_of, subscript.
  destruct (json_body r) as [[ | b | z | str | items | fs] | ];
    try (intros H; injection H as <-; auto).
  destruct (assoc "token" fs); [ discriminate | ].
  intros H; injection H as <-; auto.
Qed.

End Acquisition.

(** X9. [get_iaaa_token] returns a token exactly when the identity
    provider answers with a JSON object that has a [token] field, and
    then returns the value of that field; it raises [AuthenticationError]
    exactly when the answer is a JSON object without that field. *)
Theorem token_comes_from_the_token_field
  {E : Environment} (appid username password redir : string) (s : io) :
  (forall token,
     fst (get_iaaa_token appid username password redir s) = Ok token <->
     exists r w fs,
       send (token_request appid username password redir) (world s)
       = (Answer r, w)
       /\ json_body r = Some (JObj fs) /\ assoc "token" fs = Some token)
  /\ (fst (get_iaaa_token appid username password redir s)
      = Raise AuthenticationError <->
      exists r w fs,
        send (token_request appid username password redir) (world s)
        = (Answer r, w)
        /\ json_body r = Some (JObj fs) /\ assoc "token" fs = None).
Proof.
  rewrite get_iaaa_token_eq. cbv zeta.
  destruct (send (token_request appid username password redir) (world s))
    as [[ | r] w].
  - split; [ intros token | ]; (split; [ discriminate | ]);
      intros (r & w' & fs & H & _); discriminate.
  - pose proof (token_of_ok r) as Hok.
    pose proof (token_of_key_error r) as Hkey.
    pose proof (token_of_raises r) as Hraises.
    destruct (token_of r) as [v | e | ]; cbn [fst]; split;
      try intros token; split.
    + intros H. injection H as <-.
      destruct (proj1 (Hok v) eq_refl) as (fs & Hj & Ha).
      exists r, w, fs. auto.
    + intros (r' & w' & fs & H & Hj & Ha). injection H as <- _.
      assert (Hv : Ok v = Ok token :> result json)
        by (apply Hok; exists fs; auto).
      exact Hv.
    + discriminate.
    + intros (r' & w' & fs & H & Hj & Ha). injection H as <- _.
      assert (Hv : Ok v = Raise KeyError :> result json)
        by (apply Hkey; exists fs; auto).
      discriminate Hv.
    + destruct e; discriminate.
    + intros (r' & w' & fs & H & Hj & Ha). injection H as <- _.
      assert (Hv : Raise e = Ok token :> result json)
        by (apply Hok; exists fs; auto).
      discriminate Hv.
    + destruct (Hraises e eq_refl) as [-> | [-> | ->]]; try discriminate.
      intros _. destruct (proj1 Hkey eq_refl) as (fs & Hj & Ha).
      exists r, w, fs. auto.
    + intros (r' & w' & fs & H & Hj & Ha). injection H as <- _.
      assert (Hv : Raise e = Raise KeyError :> result json)
        by (apply Hkey; exists fs; auto).
      injection Hv as ->. reflexivity.
    + discriminate.
    + intros (r' & w' & fs & H & Hj & Ha). injection H as <- _.
      assert (Hv : OutOfFuel = Ok token :> result json)
        by (apply Hok; exists fs; auto).
      discriminate Hv.
    + discriminate.
    + intros (r' & w' & fs & H & Hj & Ha). injection H as <- _.
      assert (Hv : OutOfFuel = Raise KeyError :> result json)
        by (apply Hkey; exists fs; auto).
      discriminate Hv.
Qed.

(** X10. [get_elective_session] raises [AuthenticationError] in two cases
    and no other: the token request did, or the token was obtained and the
    portal answered the login request with a status other than 200. *)
Theorem authentication_error_cases
  {E : Environment} (username password : string) (s : io) :
  fst (get_elective_session username password s) = Raise AuthenticationError
  <->
  (fst (get_iaaa_token "syllabus" username password
          "http://elective.pku.edu.cn/elective2008/agent4Iaaa.jsp/../ssoLogin.do"
          (log_to (Log DEBUG Msg_attempt_session) s))
   = Raise AuthenticationError
   \/ exists token s1 resp w,
        get_iaaa_token "syllabus" username password
          "http://elective.pku.edu.cn/elective2008/agent4Iaaa.jsp/../ssoLogin.do"
          (log_to (Log DEBUG Msg_attempt_session) s)
        = (Ok token, s1)
        /\ send (login_request token) (world s1) = (Answer resp, w)
        /\ status_code resp <> 200).
Proof.
  rewrite get_elective_session_eq.
  destruct (get_iaaa_token _ _ _ _ _) as [[token | e | ] s1]; cbn [fst].
  - destruct (send (login_request token) (world s1)) as [[ | resp] w] eqn:Hs.
    + split; [ discriminate | ].
      intros [H | (t & s2 & r & w' & H & Hsend & _)]; [ discriminate | ].
      injection H as <- <-. rewrite Hs in Hsend. discriminate.
    + destruct (status_code resp =? 200) eqn:Hc; cbn [fst].
      * split; [ discriminate | ].
        intros [H | (t & s2 & r & w' & H & Hsend & Hne)]; [ discriminate | ].
        injection H as <- <-. rewrite Hs in Hsend. injection Hsend as <- _.
        apply Z.eqb_eq in Hc. contradiction.
      * split; [ | reflexivity ]. intros _. right.
        exists token, s1, resp, w. conj; auto.
        apply Z.eqb_neq. exact Hc.
  - split.
    + intros H. left. injection H as ->. reflexivity.
    + intros [H | (t & s2 & r & w' & H & _)]; [ | discriminate ].
      injection H as ->. reflexivity.
  - split; [ discriminate | ].
    intros [H | (t & s2 & r & w' & H & _)]; discriminate.
Qed.

(** X11. When [get_elective_session] returns, the session is the one with
    the two fixed headers, the portal has answered the login request with
    status 200, and the token that request carried is the one
    [get_iaaa_token] returned. *)
Theorem session_follows_token_and_status_200
  {E : Environment} (username password : string) (s s' : io)
  (session : Session)
  (Hrun : get_elective_session username password s = (Ok session, s')) :
  session = the_session
  /\ exists token s1 resp,
       get_iaaa_token "syllabus" username password
         "http://elective.pku.edu.cn/elective2008/agent4Iaaa.jsp/../ssoLogin.do"
         (log_to (Log DEBUG Msg_attempt_session) s)
       = (Ok token, s1)
       /\ send (login_request token) (world s1) = (Answer resp, world s')
       /\ status_code resp = 200
       /\ trace s' = Log DEBUG Msg_got_session_debug :: trace s1.
Proof.
  rewrite get_elective_session_eq in Hrun.
  destruct (get_iaaa_token _ _ _ _ _) as [[token | e | ] s1];
    try discriminate.
  destruct (send (login_request token) (world s1)) as [[ | resp] w] eqn:Hs;
    [ discriminate | ].
  destruct (status_code resp =? 200) eqn:Hc; [ | discriminate ].
  injection Hrun as <- <-. split; [ reflexivity | ].
  exists token, s1, resp. conj; auto. apply Z.eqb_eq. exact Hc.
Qed.

Lemma session_follows_token_and_status_200_witness :
  the_session = the_session
  /\ exists token s1 resp,
       get_iaaa_token "syllabus" "1900012345" "secret"
         "http://elective.pku.edu.cn/elective2008/agent4Iaaa.jsp/../ssoLogin.do"
         (log_to (Log DEBUG Msg_attempt_session) (fresh login_ok))
       = (Ok token, s1)
       /\ send (login_request token) (world s1)
          = (Answer resp,
             world (snd (get_elective_session "1900012345" "secret"
                           (fresh login_ok))))
       /\ status_code resp = 200
       /\ trace (snd (get_elective_session "1900012345" "secret"
                        (fresh login_ok)))
          = Log DEBUG Msg_got_session_debug :: trace s1.
Proof.
  apply (session_follows_token_and_status_200 (E := scripted)
           "1900012345" "secret" (fresh login_ok)).
  vm_compute. reflexivity.
Defined.

(** * Further properties: the loops of [main] *)

Section Frames.

Context {E : Environment}.

Context {X : Type}.

Variable f : machine -> X.

Hypothesis f_outside : forall s o, f (with_outside s o) = f s.


Lemma preserves_raise {A : Type} (e : exn) : preserves f (raise (A := A) e).
Proof. intros s r s' H. injection H as <- <-. reflexivity. Qed.






End Frames.

Section Sess_frame.

Context {E : Environment}.






End Sess_frame.

Section Raised_by_the_loops.

Context {E : Environment}.

Lemma elect_raises
  (depth : nat) (session : Session) (course : Course.t)
  (s s' : io) (e : exn) :
  elect depth session course s = (Raise e, s') ->
  e = SessionExpiredError \/ e = IllegalOperationError
  \/ e = RequestException \/ e = KeyError \/ e = TypeError.
Proof.
  unfold elect. unfold bind at 1. unfold logger at 1, emit.
  fold (announced course s). unfold bind at 1.
  destruct (solve_captcha depth session (announced course s))
    as [[[] | e1 | ] s1] eqn:Hc.
  - unfold bind at 1. unfold try_except, bind at 1.
    destruct (http (elect_request session course) s1)
      as [[resp | e2 | ] s2] eqn:Hh.
    + unfold of_result, msg_tips_text.
      destruct (msgTips (html resp)) as [msg | ]; simpl.
      * destruct (contains success_marker msg).
        -- unfold logger, emit. discriminate.
        -- unfold bind, logger, emit, raise. simpl.
           intros H. injection H as <- _. auto.
      * unfold raise. intros H. injection H as <- _. auto.
    + rewrite (http_raises _ _ _ _ Hh). simpl.
      intros H. injection H as <- _. auto.
    + discriminate.
  - intros H. injection H as <- _.
    destruct (solve_captcha_raises _ _ _ _ _ Hc) as [-> | [-> | [-> | ->]]];
      auto.
  - discriminate.
Qed.

Lemma for_course_raises
  (depth : nat) (session : Session) (found : list Course.t)
  (t : Target.t) (s s' : machine) (e : exn) :
  for_course depth session found t s = (Raise e, s') ->
  e = SessionExpiredError \/ e = IllegalOperationError \/ library_error e.
Proof.
  unfold library_error.
  revert s. induction found as [ | course rest IH]; intros s.
  - simpl. unfold ret. discriminate.
  - destruct (electable course) eqn:Hel.
    + rewrite for_course_electable by exact Hel.
      destruct (elect depth session course _) as [[[] | e1 | ] o] eqn:Helect.
      * destruct (in_dec Target.eq_dec t (targets s)); [ apply IH | ].
        intros H. injection H as <- _. tauto.
      * intros H. injection H as <- _.
        destruct (elect_raises _ _ _ _ _ _ Helect)
          as [-> | [-> | [-> | [-> | ->]]]]; tauto.
      * discriminate.
    + rewrite for_course_full by exact Hel. apply IH.
Qed.

Lemma for_target_raises
  (depth : nat) (session : Session) (courses : list Course.t)
  (n i : nat) (s s' : machine) (e : exn) :
  for_target depth session courses n i s = (Raise e, s') ->
  e = SessionExpiredError \/ e = IllegalOperationError \/ library_error e.
Proof.
  revert i s. induction n as [ | n IH]; intros i s.
  - simpl. unfold of_result. discriminate.
  - rewrite for_target_eq.
    destruct (nth_error (targets s) i) as [t | ]; [ | discriminate ].
    destruct (for_target_body depth session courses t (visiting t s))
      as [[[] | e1 | ] s1] eqn:Hbody; [ apply IH | | discriminate ].
    intros H. injection H as <- _.
    rewrite for_target_body_eq in Hbody.
    destruct (search_result courses t) as [[ | course found] | e2 | ] eqn:Hs.
    + cbv zeta in Hbody.
      destruct (in_dec Target.eq_dec t (targets (visiting t s)));
        [ discriminate | ].
      injection Hbody as <- _. unfold library_error. tauto.
    + exact (for_course_raises _ _ _ _ _ _ _ Hbody).
    + injection Hbody as <- _. rewrite (search_raises _ _ _ Hs).
      unfold library_error. tauto.
    + discriminate.
Qed.



Lemma login_attempt_eq (username password : string) (s : machine) :
  login_attempt username password s
  = match get_elective_session username password (outside s) with
    | (Ok x, o) =>
        (Ok tt,
         {| outside := log_to (Log INFO Msg_got_session) o;
            targets := targets s; target := target s;
            session_expired := false; sess := Some x |})
    | (Raise AuthenticationError, o) =>
        (Raise (SystemExit 1),
         with_outside s (log_to (Log CRITICAL Msg_authentication) o))
    | (Raise NetworkError, o) =>
        (Ok tt,
         with_outside s
           (log_to (Sleep 10) (log_to (Log INFO Msg_retry_session) o)))
    | (Raise e, o) => (Raise e, with_outside s o)
    | (OutOfFuel, o) => (OutOfFuel, with_outside s o)
    end.
Proof.
  unfold login_attempt, try_except. unfold bind at 1. rewrite lift_run.
  destruct (get_elective_session username password (outside s))
    as [[x | e | ] o]; cbn [fst snd]; try reflexivity.
  destruct e; reflexivity.
Qed.

End Raised_by_the_loops.

Section Login.

Context {E : Environment}.

Lemma get_elective_session_ok
  (username password : string) (s s' : io) (x : Session) :
  get_elective_session username password s = (Ok x, s') -> x = the_session.
Proof.
  rewrite get_elective_session_eq.
  destruct (get_iaaa_token _ _ _ _ _) as [[token | e | ] s1];
    try discriminate.
  destruct (send (login_request token) (world s1)) as [[ | resp] w];
    try discriminate.
  destruct (status_code resp =? 200); try discriminate.
  intros H. injection H as <- _. reflexivity.
Qed.

(** One attempt of the login loop: it leaves the working list and the loop
    variable alone; when it returns, either the session is the new one and
    the flag is cleared, or (the network failed) nothing but the log has
    changed. *)
Lemma login_attempt_cases
  (username password : string) (s s' : machine) (r : result unit) :
  login_attempt username password s = (r, s') ->
  targets s' = targets s /\ target s' = target s
  /\ (r = Ok tt ->
      (session_expired s' = false /\ sess s' = Some the_session)
      \/ (session_expired s' = session_expired s /\ sess s' = sess s))
  /\ (forall e, r = Raise e ->
        e = SystemExit 1 \/ e = ValueError \/ e = TypeError).
Proof.
  rewrite login_attempt_eq.
  destruct (get_elective_session username password (outside s))
    as [[x | e | ] o] eqn:Hget.
  - intros H. injection H as <- <-. cbn [targets target session_expired sess].
    rewrite (get_elective_session_ok _ _ _ _ _ Hget).
    conj; auto. discriminate.
  - destruct (get_elective_session_raises _ _ _ _ _ Hget)
      as [-> | [-> | [-> | ->]]];
      intros H; injection H as <- <-; cbn [with_outside targets target
                                            session_expired sess];
      conj; auto; try discriminate;
      intros e He; injection He as <-; auto.
  - intros H. injection H as <- <-. conj; auto; discriminate.
Qed.


End Login.

(** X12. The login loop of [main] touches neither the working list nor the
    loop variable.  With the flag already cleared it does nothing at all.
    When it returns, the flag is cleared, and if it was set the session
    is the one of the last call of [get_elective_session]; the only
    errors that leave it are [SystemExit(1)] and the [ValueError] and
    [TypeError] that [get_elective_session] lets out. *)
Theorem login_loop_ends_logged_in
  {E : Environment}
  (username password : string) (n : nat) (s s' : machine) (r : result unit)
  (Hrun : login_loop username password n s = (r, s')) :
  targets s' = targets s /\ target s' = target s
  /\ (session_expired s = false -> r = Ok tt /\ s' = s)
  /\ (r = Ok tt ->
      session_expired s' = false
      /\ (session_expired s = true -> sess s' = Some the_session))
  /\ (forall e, r = Raise e ->
        e = SystemExit 1 \/ e = ValueError \/ e = TypeError).
Proof.
  revert s Hrun. induction n as [ | n IH]; intros s; cbn [login_loop].
  - destruct (session_expired s) eqn:Hexp; intros H; injection H as <- <-;
      conj; intros; conj; intros; congruence.
  - destruct (session_expired s) eqn:Hexp.
    + unfold bind at 1.
      destruct (login_attempt username password s) as [[[] | e | ] s1] eqn:Ha;
        destruct (login_attempt_cases _ _ _ _ _ Ha) as (T1 & V1 & Hok & Hraise).
      * intros Hrun. destruct (IH s1 Hrun) as (T2 & V2 & Hsame & Hdone & Hr2).
        conj; try congruence; try exact Hr2.
        intros ->. destruct (Hdone eq_refl) as [F2 S2].
        split; [ exact F2 | ]. intros _.
        destruct (Hok eq_refl) as [[F1 S1] | [F1 S1]].
        -- destruct (Hsame F1) as [_ ->]. exact S1.
        -- apply S2. congruence.
      * intros H. injection H as <- <-. conj; auto; discriminate.
      * intros H. injection H as <- <-. conj; auto; discriminate.
    + intros H. injection H as <- <-.
      conj; intros; conj; intros; congruence.
Qed.

(** A run of X12: the identity service is unreachable at first, then the
    login succeeds. *)
Lemma login_loop_ends_logged_in_witness :
  let s := initial (E := scripted) (Unreachable :: login_ok) [algebra] in
  let run := login_loop "1900012345" "secret" 2 s in
  fst run = Ok tt
  /\ targets (snd run) = [algebra]
  /\ session_expired (snd run) = false
  /\ sess (snd run) = Some the_session.
Proof.
  cbv zeta.
  destruct (login_loop_ends_logged_in (E := scripted) "1900012345" "secret" 2
              (initial (E := scripted) (Unreachable :: login_ok) [algebra])
              _ _ (surjective_pairing _))
    as (T & _ & _ & Hdone & _).
  assert (Hok : fst (login_loop (E := scripted) "1900012345" "secret" 2
                       (initial (E := scripted) (Unreachable :: login_ok)
                          [algebra])) = Ok tt) by (vm_compute; reflexivity).
  destruct (Hdone Hok) as [F S].
  split; [ exact Hok | ].
  split; [ exact T | ].
  split; [ exact F | ].
  apply S. reflexivity.
Defined.

(** X13. When the login attempt ends with [AuthenticationError] the
    program leaves through [sys.exit(1)]: the loop of [main] raises
    [SystemExit(1)] right after the critical record, with the working
    list untouched, and [logger.catch] does not stop it. *)
Theorem authentication_error_exits_with_status_1
  {E : Environment}
  (username password : string) (depth n : nat) (s : machine) (o : io)
  (Htargets : targets s <> [])
  (Hexpired : session_expired s = true)
  (Hauth : get_elective_session username password (outside s)
           = (Raise AuthenticationError, o)) :
  main_loop username password depth (S n) s
  = (Raise (SystemExit 1),
     with_outside s (log_to (Log CRITICAL Msg_authentication) o))
  /\ forall w rows,
       s = initial w rows ->
       main username password depth (S n) w rows
       = (Raise (SystemExit 1),
          with_outside s (log_to (Log CRITICAL Msg_authentication) o)).
Proof.
  assert (Hloop : main_loop username password depth (S n) s
                  = (Raise (SystemExit 1),
                     with_outside s
                       (log_to (Log CRITICAL Msg_authentication) o))).
  { cbn [main_loop]. destruct (targets s) as [ | t ts]; [ congruence | ].
    unfold bind at 1. cbn [login_loop]. rewrite Hexpired.
    unfold bind at 1. rewrite login_attempt_eq, Hauth. reflexivity. }
  split; [ exact Hloop | ].
  intros w rows ->. unfold main, try_except. unfold bind at 1.
  rewrite Hloop. reflexivity.
Qed.

Lemma authentication_error_exits_with_status_1_witness :
  let s := initial (E := scripted) [json_page (JObj [])] [algebra] in
  fst (main (E := scripted) "1900012345" "wrong" 3 1
         [json_page (JObj [])] [algebra])
  = Raise (SystemExit 1)
  /\ fst (main_loop (E := scripted) "1900012345" "wrong" 3 1 s)
     = Raise (SystemExit 1).
Proof.
  cbv zeta.
  destruct (authentication_error_exits_with_status_1 (E := scripted)
              "1900012345" "wrong" 3 0
              (initial (E := scripted) [json_page (JObj [])] [algebra])
              (snd (get_elective_session (E := scripted) "1900012345" "wrong"
                      (outside (initial (E := scripted)
                                  [json_page (JObj [])] [algebra]))))
              ltac:(discriminate) eq_refl ltac:(vm_compute; reflexivity))
    as [Hloop Hmain].
  split.
  - rewrite (Hmain _ _ eq_refl). reflexivity.
  - rewrite Hloop. reflexivity.
Defined.

(** X14. With no target left the loop of [main] does nothing; started on
    an empty [targets.csv], [main] sends no request, never logs in, and
    ends after the two records of its first and last lines. *)
Theorem empty_target_list_sends_nothing
  {E : Environment}
  (username password : string) (depth n : nat) :
  (forall s, targets s = [] ->
             main_loop username password depth n s = (Ok tt, s))
  /\ forall w,
       main username password depth n w []
       = (Ok tt,
          {| outside :=
               {| world := w;
                  trace := [Log INFO Msg_no_more_targets;
                            Log INFO Msg_version] |};
             targets := []; target := None;
             session_expired := true; sess := None |}).
Proof.
  assert (Hloop : forall s, targets s = [] ->
                    main_loop username password depth n s = (Ok tt, s)).
  { intros s Hs. destruct n; cbn [main_loop]; rewrite Hs; reflexivity. }
  split; [ exact Hloop | ].
  intros w. unfold main, try_except. unfold bind at 1.
  rewrite Hloop by reflexivity. reflexivity.
Qed.

(** X15. Inside an iteration [NetworkError] can only come from the fetch
    of the directory, when the portal does not answer: no target has been
    visited, the handler writes its warning, and the iteration ends with
    the working list, the loop variable, the flag and the session as
    they were. *)
Theorem network_error_comes_from_the_directory_fetch
  {E : Environment}
  (depth : nat) (s s1 : machine)
  (Hfail : refresh_and_scan depth (refreshed s) = (Raise NetworkError, s1)) :
  exists session,
    sess s = Some session
    /\ fst (send (courses_request session) (world (outside s))) = Unreachable
    /\ s1 = with_outside s
              {| world := snd (send (courses_request session)
                                 (world (outside s)));
                 trace := Log DEBUG Msg_network_courses
                          :: Log DEBUG Msg_attempt_courses
                          :: Log DEBUG Msg_refreshing :: events s |}
    /\ iteration depth s
       = (Ok tt,
          with_outside s1
            (log_to (Sleep 10)
               (log_to (Log WARNING Msg_network) (outside s1)))).
Proof.
  assert (Hiter : iteration depth s
                  = (Ok tt,
                     with_outside s1
                       (log_to (Sleep 10)
                          (log_to (Log WARNING Msg_network) (outside s1))))).
  { rewrite iteration_eq. unfold try_except. rewrite Hfail.
    cbn [handlers]. rewrite lift_run. reflexivity. }
  rewrite refresh_and_scan_eq in Hfail.
  change (sess (refreshed s)) with (sess s) in Hfail.
  destruct (sess s) as [session | ]; [ | discriminate ].
  exists session. split; [ reflexivity | ].
  rewrite get_courses_eq in Hfail. cbv zeta in Hfail.
  change (world (outside (refreshed s))) with (world (outside s)) in Hfail.
  destruct (send (courses_request session) (world (outside s)))
    as [[ | resp] w].
  - injection Hfail as <-. conj; auto.
  - exfalso. destruct (read_table resp) as [courses | e | ] eqn:Hread.
    + destruct (for_target_raises _ _ _ _ _ _ _ _ Hfail)
        as [H | [H | [H | [H | [H | [H | H]]]]]]; discriminate H.
    + destruct (read_table_raises _ _ Hread)
        as [-> | [-> | [-> | [-> | ->]]]]; discriminate Hfail.
    + discriminate.
Qed.

Lemma network_error_comes_from_the_directory_fetch_witness :
  let s := logged_in [] [algebra] in
  fst (iteration 3 s) = Ok tt
  /\ targets (snd (iteration 3 s)) = [algebra]
  /\ session_expired (snd (iteration 3 s)) = false.
Proof.
  cbv zeta.
  destruct (network_error_comes_from_the_directory_fetch (E := scripted) 3
              (logged_in [] [algebra])
              (snd (refresh_and_scan 3 (refreshed (logged_in [] [algebra]))))
              ltac:(vm_compute; reflexivity))
    as (session & _ & _ & _ & Hiter).
  rewrite Hiter. conj; reflexivity.
Defined.

Section Outcomes.

Context {E : Environment}.


End Outcomes.


Section Unlisted.

Context {E : Environment}.
Variable depth : nat.
Variable session : Session.
Variable courses : list Course.t.

Lemma remove_first_middle (x : Target.t) (pre rest : list Target.t) :
  ~ In x pre -> remove_first x (pre ++ x :: rest) = pre ++ rest.
Proof.
  induction pre as [ | y pre IH]; simpl; intros Hx.
  - destruct (Target.eq_dec x x); [ reflexivity | congruence ].
  - destruct (Target.eq_dec y x) as [-> | _]; [ tauto | ].
    rewrite IH; [ reflexivity | tauto ].
Qed.

Lemma for_target_past_the_end (n i : nat) (s : machine) :
  (List.length (targets s) <= i)%nat ->
  for_target depth session courses (S n) i s = (Ok tt, s).
Proof.
  intros Hi. rewrite for_target_eq.
  destruct (nth_error (targets s) i) eqn:Hn; [ | reflexivity ].
  assert (nth_error (targets s) i <> None) as Hsome by congruence.
  apply nth_error_Some in Hsome. lia.
Qed.

Lemma scan_of_unlisted_targets (n : nat) :
  forall (pre rest : list Target.t) (s : machine),
    (forall t course, In t (targets s) -> In course courses ->
                      Course.name course <> Target.courseName t) ->
    NoDup (targets s) ->
    targets s = pre ++ rest ->
    (List.length rest < n)%nat ->
    exists s',
      for_target depth session courses n (List.length pre) s = (Ok tt, s')
      /\ targets s' = pre ++ odd_places rest
      /\ world (outside s') = world (outside s).
Proof.
  induction n as [ | n IH]; intros pre rest s Hnames Hnd Hsplit Hlen;
    [ lia | ].
  destruct rest as [ | r0 rest'].
  - exists s. rewrite for_target_past_the_end.
    + conj; auto.
    + rewrite Hsplit, app_nil_r. lia.
  - rewrite for_target_eq.
    assert (Hk : nth_error (targets s) (List.length pre) = Some r0).
    { rewrite Hsplit, nth_error_app2 by lia.
      rewrite Nat.sub_diag. reflexivity. }
    rewrite Hk.
    assert (Hin : In r0 (targets s)).
    { rewrite Hsplit. apply in_or_app. right. left. reflexivity. }
    assert (Hpre : ~ In r0 pre).
    { rewrite Hsplit in Hnd. apply NoDup_remove_2 in Hnd.
      intros H. apply Hnd. apply in_or_app. left. exact H. }
    rewrite for_target_body_eq.
    rewrite search_result_unnamed by (intros course; apply Hnames; exact Hin).
    cbv zeta. change (targets (visiting r0 s)) with (targets s).
    destruct (in_dec Target.eq_dec r0 (targets s)); [ | contradiction ].
    set (s1 := without r0 _).
    assert (Ht1 : targets s1 = pre ++ rest').
    { unfold s1. cbn [without with_outside visiting targets].
      rewrite Hsplit. apply remove_first_middle. exact Hpre. }
    assert (Hw1 : world (outside s1) = world (outside s)) by reflexivity.
    assert (Hnd1 : NoDup (targets s1)).
    { rewrite Ht1. rewrite Hsplit in Hnd. exact (NoDup_remove_1 _ _ _ Hnd). }
    assert (Hnames1 : forall t course, In t (targets s1) -> In course courses ->
                        Course.name course <> Target.courseName t).
    { intros t course Ht. apply Hnames. rewrite Hsplit. rewrite Ht1 in Ht.
      apply in_app_or in Ht. apply in_or_app.
      destruct Ht; [ left | right; right ]; assumption. }
    destruct rest' as [ | r1 rest''].
    + destruct n as [ | n]; [ simpl in Hlen; lia | ].
      exists s1. rewrite for_target_past_the_end.
      * conj; auto.
      * rewrite Ht1, app_nil_r. lia.
    + destruct (IH (pre ++ [r1]) rest'' s1 Hnames1 Hnd1) as (s' & Hrun & T & W).
      * rewrite Ht1, <- app_assoc. reflexivity.
      * simpl in Hlen. lia.
      * exists s'. rewrite length_app, Nat.add_comm in Hrun. cbn in Hrun.
        conj.
        -- exact Hrun.
        -- rewrite T, <- app_assoc. reflexivity.
        -- congruence.
Qed.

End Unlisted.

(** X17. When no course of the directory carries the name of any target
    (and no target is listed twice), one scan of the working list removes
    the targets at the even places only: each removal moves the next
    target into the place the iterator has just left.  The targets at the
    odd places are left, in order, and nothing is asked of the portal. *)
Theorem unlisted_targets_leave_every_other_one
  {E : Environment}
  (depth : nat) (session : Session) (courses : list Course.t) (s : machine)
  (Hdistinct : NoDup (targets s))
  (Hnames : forall t course,
      In t (targets s) -> In course courses ->
      Course.name course <> Target.courseName t) :
  exists s',
    for_target depth session courses (S (List.length (targets s))) 0 s
    = (Ok tt, s')
    /\ targets s' = odd_places (targets s)
    /\ world (outside s') = world (outside s).
Proof.
  exact (scan_of_unlisted_targets depth session courses
           (S (List.length (targets s))) [] (targets s) s
           Hnames Hdistinct eq_refl (Nat.lt_succ_diag_r _)).
Qed.

Lemma unlisted_targets_leave_every_other_one_witness :
  let s := logged_in [] [algebra; biology; chemistry] in
  exists s',
    for_target 3 a_session [intro_cs_7] 4 0 s = (Ok tt, s')
    /\ targets s' = [biology]
    /\ world (outside s') = [].
Proof.
  cbv zeta.
  apply (unlisted_targets_leave_every_other_one (E := scripted) 3 a_session
           [intro_cs_7] (logged_in [] [algebra; biology; chemistry])).
  - repeat constructor; simpl; intuition discriminate.
  - intros t course [<- | [<- | [<- | []]]] [<- | []]; discriminate.
Defined.

(** X18. [solve_captcha] writes one debug record for each challenge it
    asks for and nothing else: a call that nests [k] deep leaves [k]
    records, with no pause between the rounds; at least one challenge is
    asked for, and only the bound on the nesting stops the retries while
    the portal keeps rejecting the answers. *)
Theorem solve_captcha_logs_one_record_per_round
  {E : Environment}
  (depth : nat) (session : Session) (s s' : io) (r : result unit)
  (Hrun : solve_captcha depth session s = (r, s')) :
  exists k,
    trace s' = repeat (Log DEBUG Msg_attempt_captcha) k ++ trace s
    /\ (k <= depth)%nat
    /\ (r = OutOfFuel -> k = depth)
    /\ (r <> OutOfFuel -> 1 <= k)%nat.
Proof.
  revert s s' r Hrun. induction depth as [ | depth IH]; intros s s' r.
  - simpl. unfold of_result. intros H. injection H as <- <-.
    exists 0%nat. conj; auto. congruence.
  - cbn [solve_captcha]. unfold bind at 1. unfold logger, emit.
    unfold bind at 1. unfold http at 1. cbn [world trace].
    destruct (send (captcha_request session) (world s)) as [[ | img] w1].
    { intros H. injection H as <- <-. exists 1%nat.
      conj; auto; try lia; discriminate. }
    unfold bind at 1. unfold http at 1. cbn [world trace].
    destruct (send (submit_request session _) w1) as [[ | resp] w2].
    { intros H. injection H as <- <-. exists 1%nat.
      conj; auto; try lia; discriminate. }
    unfold try_except, bind, of_result.
    destruct (doc <-? resp_json resp;; subscript doc "valid")
      as [valid | e | ] eqn:Hv.
    + destruct (differs_from_str valid "2").
      * destruct (solve_captcha depth session _) as [r1 s1] eqn:Hrec.
        destruct (IH _ _ _ Hrec) as (k & Htr & Hle & Hfuel & Hpos).
        cbn [trace] in Htr.
        assert (Hshape : trace s1
                         = repeat (Log DEBUG Msg_attempt_captcha) (S k)
                           ++ trace s).
        { rewrite Htr. cbn [repeat]. rewrite repeat_cons, <- app_assoc.
          reflexivity. }
        destruct r1 as [[] | e1 | ].
        -- intros H. injection H as <- <-. exists (S k).
           conj; auto; try lia; discriminate.
        -- destruct (solve_captcha_raises _ _ _ _ _ Hrec)
             as [-> | [-> | [-> | ->]]]; cbn [on_value_error];
             intros H; injection H as <- <-; exists (S k);
             conj; auto; try lia; discriminate.
        -- intros H. injection H as <- <-. exists (S k).
           conj; auto; lia.
      * unfold ret. intros H. injection H as <- <-. exists 1%nat.
        conj; auto; try lia; discriminate.
    + destruct (on_value_error e) as [k0 | ] eqn:Hh.
      * destruct e; try discriminate Hh. injection Hh as <-.
        unfold raise. intros H. injection H as <- <-. exists 1%nat.
        conj; auto; try lia; discriminate.
      * intros H. injection H as <- <-. exists 1%nat.
        conj; auto; try lia; discriminate.
    + exfalso. unfold resp_json, subscript in Hv.
      destruct (json_body resp) as [[ | | | | | fs] | ]; simpl in Hv;
        try discriminate Hv.
      destruct (assoc "valid" fs); discriminate Hv.
Qed.

Lemma solve_captcha_logs_one_record_per_round_witness :
  exists k,
    trace (snd (solve_captcha (E := scripted) 5 a_session
                  (fresh (captcha_rounds 2))))
    = repeat (Log DEBUG Msg_attempt_captcha) k ++ []
    /\ (k <= 5)%nat.
Proof.
  destruct (solve_captcha_logs_one_record_per_round (E := scripted) 5 a_session
              (fresh (captcha_rounds 2)) _ _ (surjective_pairing _))
    as (k & Htr & Hle & _).
  exists k. split; [ exact Htr | exact Hle ].
Defined.

(** X19. [elect] catches nothing of the transport: when the CAPTCHA has
    been solved and the request for the election address gets no answer,
    the [RequestException] of [requests] leaves [elect] as it is, and
    neither record of the outcome is written. *)
Theorem elect_lets_transport_failure_out
  {E : Environment}
  (depth : nat) (session : Session) (course : Course.t) (s s1 : io)
  (Hcaptcha : solve_captcha depth session (announced course s) = (Ok tt, s1))
  (Hdown : fst (send (elect_request session course) (world s1))
           = Unreachable) :
  elect depth session course s
  = (Raise RequestException,
     {| world := snd (send (elect_request session course) (world s1));
        trace := trace s1 |}).
Proof.
  unfold elect. unfold bind at 1. unfold logger at 1, emit.
  fold (announced course s). unfold bind at 1. rewrite Hcaptcha.
  unfold bind at 1. unfold try_except, bind at 1. unfold http.
  destruct (send (elect_request session course) (world s1)) as [rep w].
  simpl in Hdown. subst rep. reflexivity.
Qed.

Lemma elect_lets_transport_failure_out_witness :
  elect (E := scripted) 3 a_session algebra_course (fresh (captcha_rounds 0))
  = (Raise RequestException,
     @Build_io scripted []
       [Log DEBUG Msg_attempt_captcha; Log INFO (Msg_attempt_elect "Algebra")]).
Proof.
  exact (elect_lets_transport_failure_out (E := scripted) 3 a_session
           algebra_course (fresh (captcha_rounds 0))
           (@Build_io scripted []
              [Log DEBUG Msg_attempt_captcha;
               Log INFO (Msg_attempt_elect "Algebra")])
           eq_refl eq_refl).
Defined.

(** X20. An error that no [except] clause of the loop names ends the
    loop at once: when the fetch or the scan ends with an error of the
    interpreter or of [requests], the iteration ends with it, without the
    handlers and without the pause, and so does the loop of [main], with
    the working list as the failing statement left it. *)
Theorem uncaught_error_ends_the_loop
  {E : Environment}
  (username password : string) (depth n : nat) (s s1 : machine) (e : exn)
  (Htargets : targets s <> [])
  (Hlogged : session_expired s = false)
  (Hlib : library_error e)
  (Hfail : refresh_and_scan depth (refreshed s) = (Raise e, s1)) :
  iteration depth s = (Raise e, s1)
  /\ main_loop username password depth (S n) s = (Raise e, s1).
Proof.
  assert (Hiter : iteration depth s = (Raise e, s1)).
  { rewrite iteration_eq. unfold try_except. rewrite Hfail.
    destruct Hlib as [-> | [-> | [-> | [-> | ->]]]]; reflexivity. }
  split; [ exact Hiter | ].
  cbn [main_loop]. destruct (targets s) as [ | t ts]; [ congruence | ].
  unfold bind at 1. cbn [login_loop]. rewrite Hlogged.
  unfold bind at 1. rewrite Hiter. reflexivity.
Qed.

Lemma uncaught_error_ends_the_loop_witness :
  let s := logged_in (directory [algebra_row "50/49"] :: captcha_rounds 0)
             [algebra; biology] in
  fst (main_loop (E := scripted) "1900012345" "secret" 3 1 s)
  = Raise RequestException
  /\ targets (snd (main_loop (E := scripted) "1900012345" "secret" 3 1 s))
     = [algebra; biology].
Proof.
  cbv zeta.
  destruct (uncaught_error_ends_the_loop (E := scripted)
              "1900012345" "secret" 3 0
              (logged_in (directory [algebra_row "50/49"] :: captcha_rounds 0)
                 [algebra; biology])
              (snd (refresh_and_scan 3
                      (refreshed
                         (logged_in
                            (directory [algebra_row "50/49"]
                             :: captcha_rounds 0)
                            [algebra; biology]))))
              RequestException
              ltac:(discriminate) eq_refl
              ltac:(left; reflexivity) ltac:(vm_compute; reflexivity))
    as [_ Hloop].
  rewrite Hloop. split; vm_compute; reflexivity.
Defined.
